(** * checkit.py: normalising a JSON dictionary file

    A shallow embedding of [process_dictionary] (src/checkit.py) and the
    properties of its result, its statistics and its effect on the file.

    The Python function reads a JSON array of single-pair objects
    [[{key: value}, ...]], drops duplicate keys, splits the entries into
    those with a value and those without, sorts both groups and writes the
    file back, one object per line. *)

From Stdlib Require Import ZArith String Ascii List Sorted Permutation Lia.
From Stdlib Require Import Floats.SpecFloat.
From stdpp Require Import gmap strings list pretty.

Local Open Scope string_scope.
Local Open Scope list_scope.
#[local] Set Warnings "-register-all".

(** ** Parsed JSON values

    What [json.load] returns: [None], [bool], [int], [float], [str], [list]
    and [dict]. A [dict] is given by its [items()], in insertion order. *)

Inductive json : Type :=
| JNull
| JBool (b : bool)
| JInt (n : Z)
| JFloat (x : spec_float)
| JStr (s : string)
| JList (elems : list json)
| JDict (items : list (string * json)).

(** Python truth value of a parsed JSON value ([if value:] / [not value]). *)
Definition truthy (v : json) : bool :=
  match v with
  | JNull => false
  | JBool b => b
  | JInt n => negb (n =? 0)%Z
  | JFloat (S754_zero _) => false
  | JFloat _ => true
  | JStr EmptyString => false
  | JStr _ => true
  | JList [] => false
  | JList _ => true
  | JDict [] => false
  | JDict _ => true
  end.

(** ** Entries, statistics, exceptions *)

(** The one-pair dict [{key: value}] that the loop appends to a group. *)
Record Entry : Type := mkEntry { ekey : string; evalue : json }.

Definition entry_json (e : Entry) : json := JDict [(ekey e, evalue e)].

(** The [stats] dict, by its five keys. *)
Record Stats : Type := mkStats {
  total_entries : nat;
  duplicates_found : nat;
  duplicates_removed : nat;
  entries_with_value : nat;
  entries_without_value : nat
}.

Inductive ShapeMsg : Type :=
| NotAnArray        (* line 23 *)
| NotASinglePair.   (* line 42 *)

(** [JSONDecodeError] is what [json.load] raises; the [ValueError]s are those
    of the two shape checks. *)
Inductive Exn : Type :=
| FileNotFoundError
| JSONDecodeError
| ValueError (msg : ShapeMsg).

(** ** The loop state (lines 26-38)

    [group_with_value] and [group_without_value] are the local lists
    [entries_with_value] and [entries_without_value]; the names of the
    [stats] keys are taken by the record above. *)

Record LoopState : Type := mkState {
  stats : Stats;
  unique_entries : gmap string json;
  duplicates_report : gmap string (list json);
  group_with_value : list Entry;
  group_without_value : list Entry
}.

Definition init_state (n : nat) : LoopState :=
  {| stats := mkStats n 0 0 0 0;
     unique_entries := ∅;
     duplicates_report := ∅;
     group_with_value := [];
     group_without_value := [] |}.

(** [stats["duplicates_found"] += 1] and
    [duplicates_report.setdefault(key, []).append(value)] (lines 47-48). *)
Definition note_duplicate (key : string) (value : json) (s : LoopState) : LoopState :=
  let st := stats s in
  {| stats := mkStats (total_entries st) (S (duplicates_found st))
                      (duplicates_removed st)
                      (entries_with_value st) (entries_without_value st);
     unique_entries := unique_entries s;
     duplicates_report :=
       <[key := default [] (duplicates_report s !! key) ++ [value]]>
         (duplicates_report s);
     group_with_value := group_with_value s;
     group_without_value := group_without_value s |}.

(** [stats["duplicates_removed"] += 1] (line 50). *)
Definition note_removed (s : LoopState) : LoopState :=
  let st := stats s in
  {| stats := mkStats (total_entries st) (duplicates_found st)
                      (S (duplicates_removed st))
                      (entries_with_value st) (entries_without_value st);
     unique_entries := unique_entries s;
     duplicates_report := duplicates_report s;
     group_with_value := group_with_value s;
     group_without_value := group_without_value s |}.

(** Lines 55-61: record the value and append [{key: value}] to a group. *)
Definition store (key : string) (value : json) (s : LoopState) : LoopState :=
  {| stats := stats s;
     unique_entries := <[key := value]> (unique_entries s);
     duplicates_report := duplicates_report s;
     group_with_value :=
       if truthy value then group_with_value s ++ [mkEntry key value]
       else group_with_value s;
     group_without_value :=
       if truthy value then group_without_value s
       else group_without_value s ++ [mkEntry key value] |}.

(** One iteration of [for entry in data] (lines 40-61). *)
Definition loop_body (remove_empty_duplicates : bool)
    (s : LoopState) (entry : json) : Exn + LoopState :=
  match entry with
  | JDict [(key, value)] =>
      match unique_entries s !! key with
      | Some retained =>
          let s1 := note_duplicate key value s in
          if remove_empty_duplicates && negb (truthy value)
          then inr (note_removed s1)                 (* continue, line 51 *)
          else if truthy retained
          then inr s1                                (* continue, line 54 *)
          else inr (store key value s1)
      | None => inr (store key value s)
      end
  | _ => inl (ValueError NotASinglePair)
  end.

Fixpoint run_loop (remove_empty_duplicates : bool)
    (s : LoopState) (data : list json) : Exn + LoopState :=
  match data with
  | [] => inr s
  | entry :: rest =>
      match loop_body remove_empty_duplicates s entry with
      | inl e => inl e
      | inr s' => run_loop remove_empty_duplicates s' rest
      end
  end.

(** ** [list.sort(key=...)]

    Python's sort is stable and compares the keys with [<]; on [str] that is
    the order of code points, which on UTF-8 text is the order of bytes. *)

Section ListSort.
Context {A : Type} (key : A -> string).

Fixpoint sort_insert (x : A) (l : list A) : list A :=
  match l with
  | [] => [x]
  | y :: l' =>
      if String.ltb (key y) (key x) then y :: sort_insert x l'
      else x :: l
  end.

Fixpoint list_sort (l : list A) : list A :=
  match l with
  | [] => []
  | x :: l' => sort_insert x (list_sort l')
  end.
End ListSort.

(** ** The function, over the builtins it calls

    [str.lower], [str(value)], [json.load] and [json.dump] belong to Python,
    not to this repository: the development is parametric in them. *)

Section CheckIt.
Variable str_lower : string -> string.          (* s.lower() *)
Variable py_str : json -> string.               (* str(value) *)
Variable json_load : string -> option json.     (* None: the text does not parse *)
Variable json_dump : json -> string.            (* json.dump(v, f, ensure_ascii=False) *)

(** [sort_key] (lines 64-66). *)
Definition sort_key (sort_by : string) (item : Entry) : string :=
  if String.eqb sort_by "key" then str_lower (ekey item)
  else str_lower (py_str (evalue item)).

(** Lines 22-74: from the parsed data to [result], [stats] and the
    duplicates report. *)
Definition normalize (data : json) (sort_by : string)
    (remove_empty_duplicates : bool)
    : Exn + (list Entry * Stats * gmap string (list json)) :=
  match data with
  | JList entries =>
      match run_loop remove_empty_duplicates
              (init_state (length entries)) entries with
      | inl e => inl e
      | inr s =>
          let with_value := list_sort (sort_key sort_by) (group_with_value s) in
          let without_value := list_sort (sort_key sort_by) (group_without_value s) in
          let st := stats s in
          inr (with_value ++ without_value,
               mkStats (total_entries st) (duplicates_found st)
                       (duplicates_removed st)
                       (length with_value) (length without_value),
               duplicates_report s)
      end
  | _ => inl (ValueError NotAnArray)
  end.

(** The text written by lines 79-86. *)
Definition newline : string := String (ascii_of_nat 10) EmptyString.

Fixpoint dump_lines (result : list Entry) : string :=
  match result with
  | [] => ""
  | [entry] => json_dump (entry_json entry) +:+ newline
  | entry :: rest =>
      json_dump (entry_json entry) +:+ "," +:+ newline +:+ dump_lines rest
  end.

Definition render (result : list Entry) : string :=
  "[" +:+ newline +:+ dump_lines result +:+ "]".

(** [process_dictionary]: the file system is a map from paths to texts.
    The console report (lines 88-94) only reads [duplicates_report]; it
    changes neither the result nor the file and is not modelled. *)
Definition process_dictionary (fs : gmap string string) (file_path : string)
    (sort_by : string) (remove_empty_duplicates modify_original : bool)
    : gmap string string * (Exn + (list Entry * Stats)) :=
  match fs !! file_path with
  | None => (fs, inl FileNotFoundError)
  | Some text =>
      match json_load text with
      | None => (fs, inl JSONDecodeError)
      | Some data =>
          match normalize data sort_by remove_empty_duplicates with
          | inl e => (fs, inl e)
          | inr (result, st, _) =>
              (if modify_original then <[file_path := render result]> fs else fs,
               inr (result, st))
          end
      end
  end.
End CheckIt.

(** ** The write loop as the source has it (lines 79-86)

    [for i, entry in enumerate(result)]: after each entry a comma and a
    newline while [i < len(result) - 1], a newline alone after the last.
    [n] is [len(result)], an [int]. *)

Section WriteLoop.
Variable json_dump : json -> string.

Fixpoint write_entries (n i : Z) (entries : list Entry) : string :=
  match entries with
  | [] => ""
  | entry :: rest =>
      json_dump (entry_json entry)
      +:+ (if (i <? n - 1)%Z then "," +:+ newline else newline)
      +:+ write_entries n (i + 1) rest
  end.

Definition write_file (result : list Entry) : string :=
  "[" +:+ newline
  +:+ write_entries (Z.of_nat (length result)) 0 result
  +:+ "]".
End WriteLoop.

(** ** Notions used to state the properties *)

(** [isinstance(entry, dict) and len(entry) == 1] (line 41). *)
Definition single_pair (entry : json) : bool :=
  match entry with
  | JDict [_] => true
  | _ => false
  end.

(** A document the function accepts: a list of one-pair dicts. *)
Definition well_shaped (data : json) : bool :=
  match data with
  | JList entries => forallb single_pair entries
  | _ => false
  end.

(** The key of a one-pair dict, and the keys of a document in input order. *)
Definition entry_key (entry : json) : option string :=
  match entry with
  | JDict [(key, _)] => Some key
  | _ => None
  end.

Definition doc_keys (data : list json) : list string := omap entry_key data.

Definition result_keys (result : list Entry) : list string := map ekey result.

(** The one-pair dicts of a document as entries. *)
Definition json_entry (entry : json) : option Entry :=
  match entry with
  | JDict [(key, value)] => Some (mkEntry key value)
  | _ => None
  end.

Definition document_entries (data : list json) : list Entry := omap json_entry data.

Definition has_value (item : Entry) : bool := truthy (evalue item).
Definition lacks_value (item : Entry) : bool := negb (truthy (evalue item)).

(** The number of entries in the two groups. *)
Definition output_size (s : LoopState) : nat :=
  length (group_with_value s) + length (group_without_value s).

(** The duplicate occurrences dropped from the output: the entries of [data]
    whose key occurs earlier in the document ([seen]) and after which both
    groups are as long as before. *)
Fixpoint dropped_duplicates (remove_empty_duplicates : bool)
    (seen : list string) (s : LoopState) (data : list json) : nat :=
  match data with
  | [] => 0
  | entry :: rest =>
      match entry_key entry, loop_body remove_empty_duplicates s entry with
      | Some key, inr s' =>
          (if bool_decide (key ∈ seen) && Nat.eqb (output_size s') (output_size s)
           then 1 else 0)
          + dropped_duplicates remove_empty_duplicates (key :: seen) s' rest
      | _, _ => 0
      end
  end.

(** The order the sort establishes, and the entries of a list with a given
    sort key, in the order of the list. *)
Definition key_le {A : Type} (key : A -> string) (x y : A) : Prop :=
  String.leb (key x) (key y) = true.

Definition with_key {A : Type} (key : A -> string) (k : string) (l : list A) : list A :=
  List.filter (fun x => String.eqb (key x) k) l.

(** The four ways through the loop body for an entry [{key: value}]. *)
Inductive body_path (remove_empty_duplicates : bool) (s : LoopState)
    (key : string) (value : json) : LoopState -> Prop :=
| path_first :
    unique_entries s !! key = None ->
    body_path remove_empty_duplicates s key value (store key value s)
| path_removed retained :
    unique_entries s !! key = Some retained ->
    remove_empty_duplicates = true -> truthy value = false ->
    body_path remove_empty_duplicates s key value
      (note_removed (note_duplicate key value s))
| path_retained retained :
    unique_entries s !! key = Some retained ->
    remove_empty_duplicates && negb (truthy value) = false ->
    truthy retained = true ->
    body_path remove_empty_duplicates s key value (note_duplicate key value s)
| path_replaced retained :
    unique_entries s !! key = Some retained ->
    remove_empty_duplicates && negb (truthy value) = false ->
    truthy retained = false ->
    body_path remove_empty_duplicates s key value
      (store key value (note_duplicate key value s)).

(** The keys of the processed part of the document are those of
    [unique_entries]. *)
Definition seen_inv (seen : list string) (s : LoopState) : Prop :=
  forall k, k ∈ seen <-> is_Some (unique_entries s !! k).

(** [l'] is [l] sorted by [key], entries with equal keys in the order they
    have in [l]. *)
Definition stable_sorting {A : Type} (key : A -> string) (l l' : list A) : Prop :=
  StronglySorted (key_le key) l' /\
  Permutation l' l /\
  forall k, with_key key k l' = with_key key k l.

(** The parsed input is not a list, or one of its elements is not a dict
    with exactly one key. *)
Definition bad_shape (data : json) : Prop :=
  match data with
  | JList entries => Exists (fun entry => single_pair entry = false) entries
  | _ => True
  end.

(** A [ValueError] of one of the two shape checks. *)
Definition is_shape_error {R : Type} (out : Exn + R) : Prop :=
  exists msg, out = inl (ValueError msg).

(** ** What the loop keeps, entry by entry

    [pre] is the part of the document before the entry. *)

(** Some entry of [pre] has the key; some entry of [pre] has the key and a
    value. *)
Definition occurs_before (key : string) (pre : list Entry) : bool :=
  existsb (fun e => String.eqb (ekey e) key) pre.

Definition valued_before (key : string) (pre : list Entry) : bool :=
  existsb (fun e => String.eqb (ekey e) key && has_value e) pre.

(** An entry with a value is kept when no earlier entry of its key has one. *)
Definition keeps_value (pre : list Entry) (e : Entry) : bool :=
  has_value e && negb (valued_before (ekey e) pre).

(** An entry without a value is kept when it is the first of its key or,
    with [remove_empty_duplicates] off, when no earlier entry of its key has
    a value. *)
Definition keeps_empty (remove_empty_duplicates : bool)
    (pre : list Entry) (e : Entry) : bool :=
  lacks_value e && negb (valued_before (ekey e) pre)
  && (negb remove_empty_duplicates || negb (occurs_before (ekey e) pre)).

(** A duplicate: an entry whose key occurs earlier. A removed duplicate: a
    duplicate without a value, with [remove_empty_duplicates] on. *)
Definition is_duplicate (pre : list Entry) (e : Entry) : bool :=
  occurs_before (ekey e) pre.

Definition is_removed (remove_empty_duplicates : bool)
    (pre : list Entry) (e : Entry) : bool :=
  occurs_before (ekey e) pre && remove_empty_duplicates && lacks_value e.

(** The entries of [l] that [keep] selects, each judged against the entries
    before it. *)
Fixpoint select_from (keep : list Entry -> Entry -> bool)
    (pre l : list Entry) : list Entry :=
  match l with
  | [] => []
  | e :: rest =>
      (if keep pre e then [e] else []) ++ select_from keep (pre ++ [e]) rest
  end.

Definition select (keep : list Entry -> Entry -> bool) (l : list Entry) : list Entry :=
  select_from keep [] l.

(** The values of the occurrences of [key] after the first one. *)
Definition later_values (key : string) (l : list Entry) : list json :=
  tail (map evalue (List.filter (fun e => String.eqb (ekey e) key) l)).

(** The number of values the report lists, over all its keys. *)
Definition report_size (report : gmap string (list json)) : nat :=
  map_fold (fun _ values n => length values + n) 0 report.

(** The loop state agrees with the processed part [pre] of the document. *)
Definition retained_inv (pre : list Entry) (s : LoopState) : Prop :=
  forall k,
    truthy <$> (unique_entries s !! k)
    = if occurs_before k pre then Some (valued_before k pre) else None.

Definition report_inv (pre : list Entry) (s : LoopState) : Prop :=
  forall k,
    duplicates_report s !! k
    = match later_values k pre with [] => None | vs => Some vs end.

(** ** Builtins for running the model on ASCII documents *)

Module Sample.

(** [str.lower] on ASCII text: [A]-[Z] go to [a]-[z]. *)
Definition lower_char (c : ascii) : ascii :=
  let n := nat_of_ascii c in
  if Nat.leb 65 n && Nat.leb n 90 then ascii_of_nat (n + 32) else c.

Fixpoint lower (s : string) : string :=
  match s with
  | EmptyString => EmptyString
  | String c rest => String (lower_char c) (lower rest)
  end.

(** [str(value)] on the scalars whose text is fixed: a string is itself,
    [None], [True], [False] and integers print as Python prints them.
    Floats, lists and dicts are left without a text. *)
Definition str (v : json) : string :=
  match v with
  | JNull => "None"
  | JBool true => "True"
  | JBool false => "False"
  | JInt n => pretty n
  | JStr s => s
  | _ => ""
  end.

(** A loader given by a table of texts and the values they parse to. *)
Definition load (table : list (string * json)) (text : string) : option json :=
  snd <$> List.find (fun p => String.eqb (fst p) text) table.

(** A stand-in for [json.dump] on one-pair dicts: the key, a colon and the
    text of the value. *)
Definition dump (v : json) : string :=
  match v with
  | JDict [(key, value)] => key +:+ ":" +:+ str value
  | _ => ""
  end.

(** Two documents: one with duplicates, one without. *)
Definition document : list json :=
  [JDict [("b", JStr "Y")]; JDict [("a", JStr "")]; JDict [("A", JStr "x")];
   JDict [("a", JStr "z")]; JDict [("b", JStr "")]; JDict [("c", JStr "")]].

Definition plain_document : list json :=
  [JDict [("b", JStr "Y")]; JDict [("A", JStr "x")]; JDict [("c", JStr "")]].

(** What the function returns for them, sorted by key, with
    [remove_empty_duplicates] on. *)
Definition result : list Entry :=
  [mkEntry "A" (JStr "x"); mkEntry "a" (JStr "z"); mkEntry "b" (JStr "Y");
   mkEntry "a" (JStr ""); mkEntry "c" (JStr "")].

Definition report : gmap string (list json) :=
  {[ "a" := [JStr "z"]; "b" := [JStr ""] ]}.

Definition plain_result : list Entry :=
  [mkEntry "A" (JStr "x"); mkEntry "b" (JStr "Y"); mkEntry "c" (JStr "")].

End Sample.

(** * Properties *)

(** ** The order on strings *)

Lemma ltb_leb (a b : string) : String.ltb a b = true -> String.leb a b = true.
Proof. unfold String.ltb, String.leb. by destruct (String.compare a b). Qed.

Lemma ltb_false_leb (a b : string) : String.ltb a b = false -> String.leb b a = true.
Proof.
  unfold String.ltb, String.leb. rewrite (String.compare_antisym b a).
  by destruct (String.compare a b).
Qed.

Lemma ltb_irrefl (a : string) : String.ltb a a = false.
Proof.
  unfold String.ltb. pose proof (String.compare_antisym a a) as H.
  destruct (String.compare a a); simpl in H; congruence.
Qed.

Lemma leb_trans (a b c : string) :
  String.leb a b = true -> String.leb b c = true -> String.leb a c = true.
Proof.
  intros Hab Hbc. apply Is_true_true. apply Is_true_true in Hab, Hbc.
  exact (transitivity (R := String.le) Hab Hbc).
Qed.

(** ** The sort: a sorted, stable rearrangement *)

Section ListSortFacts.
Context {A : Type} (key : A -> string).

Lemma sort_insert_perm (x : A) (l : list A) :
  Permutation (sort_insert key x l) (x :: l).
Proof.
  induction l as [|y l IH]; simpl; [done|].
  destruct (String.ltb (key y) (key x)); [|done].
  rewrite IH. apply perm_swap.
Qed.

Lemma list_sort_perm (l : list A) : Permutation (list_sort key l) l.
Proof.
  induction l as [|x l IH]; simpl; [done|].
  by rewrite sort_insert_perm, IH.
Qed.

Lemma list_sort_length (l : list A) : length (list_sort key l) = length l.
Proof. apply Permutation_length, list_sort_perm. Qed.

Lemma sort_insert_sorted (x : A) (l : list A) :
  StronglySorted (key_le key) l ->
  StronglySorted (key_le key) (sort_insert key x l).
Proof.
  induction 1 as [|y l Hl IH Hy]; simpl.
  - repeat constructor.
  - destruct (String.ltb (key y) (key x)) eqn:Hlt.
    + constructor; [done|].
      rewrite sort_insert_perm. constructor; [|done].
      by apply ltb_leb.
    + apply ltb_false_leb in Hlt.
      constructor; [by constructor|].
      constructor; [done|].
      eapply Forall_impl; [exact Hy|].
      intros z Hz. unfold key_le in *. by eapply leb_trans.
Qed.

Lemma list_sort_sorted (l : list A) : StronglySorted (key_le key) (list_sort key l).
Proof.
  induction l as [|x l IH]; simpl; [constructor|].
  by apply sort_insert_sorted.
Qed.

Lemma sort_insert_with_key (k : string) (x : A) (l : list A) :
  with_key key k (sort_insert key x l) = with_key key k (x :: l).
Proof.
  unfold with_key. induction l as [|y l IH]; [done|].
  simpl sort_insert. destruct (String.ltb (key y) (key x)) eqn:Hlt; [|done].
  simpl in *. rewrite IH.
  destruct (String.eqb (key x) k) eqn:Hx; [|done].
  apply String.eqb_eq in Hx. subst k.
  destruct (String.eqb (key y) (key x)) eqn:Hy; [|done].
  apply String.eqb_eq in Hy. rewrite Hy, ltb_irrefl in Hlt. done.
Qed.

Lemma list_sort_stable (k : string) (l : list A) :
  with_key key k (list_sort key l) = with_key key k l.
Proof.
  induction l as [|x l IH]; [done|].
  simpl list_sort. rewrite sort_insert_with_key.
  unfold with_key in *. simpl. by rewrite IH.
Qed.

Lemma sort_insert_head (x : A) (l : list A) :
  Forall (key_le key x) l -> sort_insert key x l = x :: l.
Proof.
  destruct 1 as [|y l Hy _]; [done|]. simpl.
  destruct (String.ltb (key y) (key x)) eqn:Hlt; [|done].
  pose proof (String.leb_antisym _ _ Hy (ltb_leb _ _ Hlt)) as Heq.
  rewrite Heq, ltb_irrefl in Hlt. done.
Qed.

Lemma list_sort_sorted_id (l : list A) :
  StronglySorted (key_le key) l -> list_sort key l = l.
Proof.
  induction 1 as [|x l Hl IH Hx]; [done|].
  simpl. rewrite IH. by apply sort_insert_head.
Qed.

End ListSortFacts.

(** ** The loop body, path by path *)

Lemma single_pair_entry_key (entry : json) :
  single_pair entry = true <-> is_Some (entry_key entry).
Proof.
  destruct entry as [| | | | | |[|[k v] [|]]]; simpl; split;
    intros H; try done; try by eexists. all: by destruct H.
Qed.

Lemma loop_body_inr (red : bool) (s s' : LoopState) (entry : json) :
  loop_body red s entry = inr s' <->
  exists key value, entry = JDict [(key, value)] /\ body_path red s key value s'.
Proof.
  split.
  - destruct entry as [| | | | | |[|[k v] [|]]]; simpl; try done.
    intros H. exists k, v. split; [done|].
    destruct (unique_entries s !! k) as [retained|] eqn:Hk.
    + destruct (red && negb (truthy v)) eqn:Hrm.
      * injection H as <-. apply andb_true_iff in Hrm as [-> Hv].
        apply negb_true_iff in Hv. by eapply path_removed.
      * destruct (truthy retained) eqn:Hr; injection H as <-.
        -- by eapply path_retained.
        -- by eapply path_replaced.
    + injection H as <-. by apply path_first.
  - intros (k & v & -> & Hp). simpl.
    destruct Hp as [Hk|r Hk -> Hv|r Hk Hrm Hr|r Hk Hrm Hr]; rewrite Hk; try done.
    + by rewrite Hv.
    + by rewrite Hrm, Hr.
    + by rewrite Hrm, Hr.
Qed.

Lemma loop_body_inl (red : bool) (s : LoopState) (entry : json) (e : Exn) :
  loop_body red s entry = inl e <->
  single_pair entry = false /\ e = ValueError NotASinglePair.
Proof.
  destruct (single_pair entry) eqn:Hsp.
  - apply single_pair_entry_key in Hsp as [k Hk].
    destruct entry as [| | | | | |[|[k' v] [|]]]; try done. simpl.
    split; [|by intros [? _]].
    destruct (unique_entries s !! k'); [|done].
    destruct (red && negb (truthy v)); [done|]. by destruct (truthy _).
  - destruct entry as [| | | | | |[|[k' v] [|]]]; try done; simpl;
      (split; [intros Heq; injection Heq as <-; done|intros [_ ->]; done]).
Qed.

Lemma output_size_store (key : string) (value : json) (s : LoopState) :
  output_size (store key value s) = S (output_size s).
Proof.
  unfold output_size, store. simpl.
  destruct (truthy value); rewrite length_app; simpl; lia.
Qed.

Lemma body_path_seen (red : bool) (seen : list string) (s s' : LoopState)
    (key : string) (value : json) :
  seen_inv seen s -> body_path red s key value s' -> seen_inv (key :: seen) s'.
Proof.
  intros Hinv Hp k. rewrite elem_of_cons, (Hinv k).
  assert (Hins : is_Some (<[key:=value]> (unique_entries s) !! k)
                 <-> k = key \/ is_Some (unique_entries s !! k)).
  { rewrite lookup_insert_is_Some. destruct (decide (key = k)); intuition. }
  destruct Hp as [Hk|r Hk _ _|r Hk _ _|r Hk _ _]; simpl; rewrite ?Hins;
    try tauto;
    (split; [intros [->|?]; [by rewrite Hk|done]|by right]).
Qed.

(** ** The loop over the document *)

Lemma run_loop_inr_cons (red : bool) (s s' : LoopState) (entry : json) (rest : list json) :
  run_loop red s (entry :: rest) = inr s' <->
  exists key value s1,
    entry = JDict [(key, value)] /\ body_path red s key value s1 /\
    run_loop red s1 rest = inr s'.
Proof.
  simpl. split.
  - destruct (loop_body red s entry) as [e|s1] eqn:Hb; [done|].
    apply loop_body_inr in Hb as (k & v & -> & Hp). by exists k, v, s1.
  - intros (k & v & s1 & -> & Hp & Hrun).
    assert (Hb : loop_body red s (JDict [(k, v)]) = inr s1)
      by (apply loop_body_inr; eauto).
    by rewrite Hb.
Qed.

Lemma run_loop_inl (red : bool) (s : LoopState) (data : list json) (e : Exn) :
  run_loop red s data = inl e ->
  e = ValueError NotASinglePair /\ forallb single_pair data = false.
Proof.
  revert s. induction data as [|entry rest IH]; intros s; simpl; [done|].
  destruct (loop_body red s entry) as [e'|s1] eqn:Hb.
  - intros [= ->]. apply loop_body_inl in Hb as [-> ->]. done.
  - intros Hrun. apply IH in Hrun as [-> ->]. by rewrite andb_false_r.
Qed.

Lemma run_loop_total (red : bool) (s : LoopState) (data : list json) :
  forallb single_pair data = true -> exists s', run_loop red s data = inr s'.
Proof.
  revert s. induction data as [|entry rest IH]; intros s; simpl; [by eexists|].
  intros [Hsp Hrest]%andb_true_iff.
  destruct (loop_body red s entry) as [e'|s1] eqn:Hb; [|by apply IH].
  apply loop_body_inl in Hb as [Hb _]. congruence.
Qed.

Lemma dropped_conservation (red : bool) (seen : list string) (s s' : LoopState)
    (data : list json) :
  seen_inv seen s ->
  run_loop red s data = inr s' ->
  output_size s' + dropped_duplicates red seen s data = output_size s + length data.
Proof.
  revert seen s. induction data as [|entry rest IH]; intros seen s Hinv Hrun.
  - simpl in *. injection Hrun as <-. lia.
  - apply run_loop_inr_cons in Hrun as (k & v & s1 & -> & Hp & Hrun).
    pose proof (IH _ _ (body_path_seen _ _ _ _ _ _ Hinv Hp) Hrun) as Hrest.
    assert (Hb : loop_body red s (JDict [(k, v)]) = inr s1)
      by (apply loop_body_inr; eauto).
    cbn [dropped_duplicates entry_key length]. rewrite Hb.
    destruct Hp as [Hk|r Hk _ _|r Hk _ _|r Hk _ _].
    + rewrite bool_decide_eq_false_2;
        [|intros Hin; apply (Hinv k) in Hin; rewrite Hk in Hin; by destruct Hin].
      rewrite output_size_store in Hrest. simpl. lia.
    + rewrite bool_decide_eq_true_2; [|apply (Hinv k); by rewrite Hk].
      change (output_size (note_removed (note_duplicate k v s)))
        with (output_size s) in *.
      rewrite Nat.eqb_refl. simpl. lia.
    + rewrite bool_decide_eq_true_2; [|apply (Hinv k); by rewrite Hk].
      change (output_size (note_duplicate k v s)) with (output_size s) in *.
      rewrite Nat.eqb_refl. simpl. lia.
    + rewrite output_size_store in *.
      change (output_size (note_duplicate k v s)) with (output_size s) in *.
      replace (Nat.eqb (S (output_size s)) (output_size s)) with false
        by (symmetry; apply Nat.eqb_neq; lia).
      rewrite andb_false_r. simpl. lia.
Qed.

Lemma dropped_le_found (red : bool) (seen : list string) (s s' : LoopState)
    (data : list json) :
  seen_inv seen s ->
  run_loop red s data = inr s' ->
  duplicates_found (stats s) + dropped_duplicates red seen s data
  <= duplicates_found (stats s').
Proof.
  revert seen s. induction data as [|entry rest IH]; intros seen s Hinv Hrun.
  - simpl in *. injection Hrun as <-. lia.
  - apply run_loop_inr_cons in Hrun as (k & v & s1 & -> & Hp & Hrun).
    pose proof (IH _ _ (body_path_seen _ _ _ _ _ _ Hinv Hp) Hrun) as Hrest.
    assert (Hb : loop_body red s (JDict [(k, v)]) = inr s1)
      by (apply loop_body_inr; eauto).
    cbn [dropped_duplicates entry_key]. rewrite Hb.
    destruct Hp as [Hk|r Hk _ _|r Hk _ _|r Hk _ _].
    + rewrite bool_decide_eq_false_2;
        [|intros Hin; apply (Hinv k) in Hin; rewrite Hk in Hin; by destruct Hin].
      simpl in *. lia.
    + destruct (bool_decide _ && Nat.eqb _ _); simpl in *; lia.
    + destruct (bool_decide _ && Nat.eqb _ _); simpl in *; lia.
    + destruct (bool_decide _ && Nat.eqb _ _); simpl in *; lia.
Qed.

Lemma run_loop_counters (red : bool) (s s' : LoopState) (data : list json) :
  run_loop red s data = inr s' ->
  total_entries (stats s') = total_entries (stats s) /\
  exists found removed,
    duplicates_found (stats s') = duplicates_found (stats s) + found /\
    duplicates_removed (stats s') = duplicates_removed (stats s) + removed /\
    removed <= found /\ (red = false -> removed = 0).
Proof.
  revert s. induction data as [|entry rest IH]; intros s Hrun.
  - simpl in Hrun. injection Hrun as <-. split; [done|]. exists 0, 0. lia.
  - apply run_loop_inr_cons in Hrun as (k & v & s1 & -> & Hp & Hrun).
    apply IH in Hrun as (Htot & f & r & Hf & Hr & Hle & Hred).
    rewrite Htot, Hf, Hr.
    destruct Hp as [Hk|x Hk -> _|x Hk _ _|x Hk _ _]; simpl;
      (split; [done|]).
    + exists f, r. repeat split; [lia..|done].
    + exists (S f), (S r). repeat split; [lia..|done].
    + exists (S f), r. repeat split; [lia..|done].
    + exists (S f), r. repeat split; [lia..|done].
Qed.

Lemma run_loop_fresh (red : bool) (seen : list string) (s s' : LoopState)
    (data : list json) :
  seen_inv seen s ->
  NoDup (doc_keys data) ->
  (forall k, k ∈ doc_keys data -> k ∉ seen) ->
  run_loop red s data = inr s' ->
  stats s' = stats s.
Proof.
  revert seen s. induction data as [|entry rest IH]; intros seen s Hinv Hnd Hnew Hrun.
  - simpl in Hrun. by injection Hrun as <-.
  - apply run_loop_inr_cons in Hrun as (k & v & s1 & -> & Hp & Hrun).
    change (doc_keys (JDict [(k, v)] :: rest)) with (k :: doc_keys rest) in *.
    apply NoDup_cons in Hnd as [Hk Hnd].
    assert (Hnone : unique_entries s !! k = None).
    { apply eq_None_not_Some. rewrite <- (Hinv k). apply Hnew. by left. }
    rewrite (IH (k :: seen) s1); [|by eapply body_path_seen|done| |done].
    + destruct Hp as [_|x Hx _ _|x Hx _ _|x Hx _ _]; [done|congruence..].
    + intros k' Hk' [->|Hin]%elem_of_cons; [done|].
      apply (Hnew k'); [by right|done].
Qed.

Lemma run_loop_inr_shape (red : bool) (s s' : LoopState) (data : list json) :
  run_loop red s data = inr s' -> forallb single_pair data = true.
Proof.
  revert s. induction data as [|entry rest IH]; intros s Hrun; [done|].
  apply run_loop_inr_cons in Hrun as (k & v & s1 & -> & _ & Hrun).
  simpl. by eapply IH.
Qed.

Lemma run_loop_keys (red : bool) (seen : list string) (s s' : LoopState)
    (data : list json) :
  seen_inv seen s ->
  run_loop red s data = inr s' ->
  seen_inv (doc_keys data ++ seen) s'.
Proof.
  revert seen s. induction data as [|entry rest IH]; intros seen s Hinv Hrun.
  - simpl in Hrun. by injection Hrun as <-.
  - apply run_loop_inr_cons in Hrun as (k & v & s1 & -> & Hp & Hrun).
    pose proof (IH _ _ (body_path_seen _ _ _ _ _ _ Hinv Hp) Hrun) as Hrest.
    change (doc_keys (JDict [(k, v)] :: rest)) with (k :: doc_keys rest).
    intros k'. rewrite <- (Hrest k').
    rewrite ?elem_of_app, ?elem_of_cons, ?elem_of_app. tauto.
Qed.

Lemma seen_inv_init (n : nat) : seen_inv [] (init_state n).
Proof.
  intros k. simpl. rewrite lookup_empty. split; [by intros ?%elem_of_nil|].
  by intros [??].
Qed.

Lemma bad_shape_well_shaped (data : json) : bad_shape data <-> well_shaped data = false.
Proof.
  destruct data as [| | | | |entries|]; simpl; try done.
  induction entries as [|e l IH]; simpl.
  - split; [by intros ?%Exists_nil|done].
  - by rewrite Exists_cons, IH, andb_false_iff.
Qed.

(** ** Documents without a repeated key, and the groups *)

Lemma run_loop_fresh_groups (red : bool) (seen : list string) (s s' : LoopState)
    (data : list json) :
  seen_inv seen s ->
  NoDup (doc_keys data) ->
  (forall k, k ∈ doc_keys data -> k ∉ seen) ->
  run_loop red s data = inr s' ->
  group_with_value s'
  = group_with_value s ++ List.filter has_value (document_entries data) /\
  group_without_value s'
  = group_without_value s ++ List.filter lacks_value (document_entries data) /\
  duplicates_report s' = duplicates_report s.
Proof.
  revert seen s. induction data as [|entry rest IH]; intros seen s Hinv Hnd Hnew Hrun.
  - simpl in *. injection Hrun as <-. by rewrite !app_nil_r.
  - apply run_loop_inr_cons in Hrun as (k & v & s1 & -> & Hp & Hrun).
    change (doc_keys (JDict [(k, v)] :: rest)) with (k :: doc_keys rest) in *.
    change (document_entries (JDict [(k, v)] :: rest))
      with (mkEntry k v :: document_entries rest).
    apply NoDup_cons in Hnd as [Hk Hnd].
    assert (Hnone : unique_entries s !! k = None).
    { apply eq_None_not_Some. rewrite <- (Hinv k). apply Hnew. by left. }
    destruct (IH (k :: seen) s1) as (Hw & Hwo & Hrep);
      [by eapply body_path_seen|done| |done|].
    { intros k' Hk' [->|Hin]%elem_of_cons; [done|].
      apply (Hnew k'); [by right|done]. }
    rewrite Hw, Hwo, Hrep.
    destruct Hp as [_|x Hx _ _|x Hx _ _|x Hx _ _]; [|congruence..].
    unfold has_value, lacks_value. simpl.
    destruct (truthy v); simpl; by rewrite <- ?app_assoc.
Qed.

Lemma run_loop_groups (red : bool) (s s' : LoopState) (data : list json) :
  Forall (fun item => has_value item = true) (group_with_value s) ->
  Forall (fun item => lacks_value item = true) (group_without_value s) ->
  run_loop red s data = inr s' ->
  Forall (fun item => has_value item = true) (group_with_value s') /\
  Forall (fun item => lacks_value item = true) (group_without_value s').
Proof.
  revert s. induction data as [|entry rest IH]; intros s Hw Hwo Hrun.
  - simpl in Hrun. by injection Hrun as <-.
  - apply run_loop_inr_cons in Hrun as (k & v & s1 & -> & Hp & Hrun).
    apply (IH s1); [| |done].
    + destruct Hp; simpl; try done; destruct (truthy v) eqn:Hv; try done;
        apply Forall_app; (split; [done|]); repeat constructor; done.
    + destruct Hp; simpl; try done; destruct (truthy v) eqn:Hv; try done;
        apply Forall_app; (split; [done|]); repeat constructor;
        unfold lacks_value; simpl; by rewrite Hv.
Qed.

Lemma filter_all {A : Type} (f : A -> bool) (l : list A) :
  Forall (fun x => f x = true) l -> List.filter f l = l.
Proof. induction 1 as [|x l Hx _ IH]; simpl; [done|]. by rewrite Hx, IH. Qed.

Lemma filter_none {A : Type} (f : A -> bool) (l : list A) :
  Forall (fun x => f x = false) l -> List.filter f l = [].
Proof. induction 1 as [|x l Hx _ IH]; simpl; [done|]. by rewrite Hx. Qed.

Lemma document_entries_json (result : list Entry) :
  document_entries (map entry_json result) = result.
Proof.
  induction result as [|[k v] l IH]; [done|].
  change (mkEntry k v :: document_entries (map entry_json l) = mkEntry k v :: l).
  by rewrite IH.
Qed.

Lemma doc_keys_json (result : list Entry) :
  doc_keys (map entry_json result) = result_keys result.
Proof.
  induction result as [|[k v] l IH]; [done|].
  change (k :: doc_keys (map entry_json l) = k :: result_keys l).
  by rewrite IH.
Qed.

Lemma doc_keys_entries (data : list json) :
  forallb single_pair data = true ->
  doc_keys data = result_keys (document_entries data).
Proof.
  induction data as [|entry rest IH]; [done|].
  intros [Hsp Hrest]%andb_true_iff.
  destruct entry as [| | | | | |[|[k v] [|]]]; try done.
  change (k :: doc_keys rest = k :: result_keys (document_entries rest)).
  by rewrite IH.
Qed.

Lemma single_pair_json (result : list Entry) :
  forallb single_pair (map entry_json result) = true.
Proof. induction result as [|[k v] l IH]; [done|]. simpl. exact IH. Qed.

Lemma filter_split_perm {A : Type} (f : A -> bool) (l : list A) :
  Permutation (List.filter f l ++ List.filter (fun x => negb (f x)) l) l.
Proof.
  induction l as [|x l IH]; simpl; [done|].
  destruct (f x); simpl.
  - by constructor.
  - rewrite <- Permutation_middle. by constructor.
Qed.

(** ** [normalize] and [process_dictionary] on documents of either shape *)

Section Claims.
Variable str_lower : string -> string.
Variable py_str : json -> string.
Variable json_load : string -> option json.
Variable json_dump : json -> string.

Lemma normalize_inr (data : json) (sort_by : string) (red : bool)
    (result : list Entry) (st : Stats) (report : gmap string (list json)) :
  normalize str_lower py_str data sort_by red = inr (result, st, report) <->
  exists entries s,
    data = JList entries /\
    run_loop red (init_state (length entries)) entries = inr s /\
    result = list_sort (sort_key str_lower py_str sort_by) (group_with_value s)
             ++ list_sort (sort_key str_lower py_str sort_by) (group_without_value s) /\
    st = mkStats (total_entries (stats s)) (duplicates_found (stats s))
           (duplicates_removed (stats s))
           (length (group_with_value s)) (length (group_without_value s)) /\
    report = duplicates_report s.
Proof.
  unfold normalize. split.
  - destruct data as [| | | | |entries|]; try done.
    destruct (run_loop _ _ _) as [e|s] eqn:Hrun; [done|].
    intros [= <- <- <-]. exists entries, s.
    by rewrite !list_sort_length.
  - intros (entries & s & -> & -> & -> & -> & ->).
    by rewrite !list_sort_length.
Qed.

Lemma normalize_total (data : json) (sort_by : string) (red : bool) :
  well_shaped data = true ->
  exists result st report, normalize str_lower py_str data sort_by red = inr (result, st, report).
Proof.
  destruct data as [| | | | |entries|]; try done. simpl. intros Hs.
  destruct (run_loop_total red (init_state (length entries)) entries Hs) as [s ->].
  by eexists _, _, _.
Qed.

Lemma normalize_inl (data : json) (sort_by : string) (red : bool) (e : Exn) :
  normalize str_lower py_str data sort_by red = inl e ->
  is_shape_error (normalize str_lower py_str data sort_by red) /\ well_shaped data = false.
Proof.
  unfold normalize, is_shape_error.
  destruct data as [| | | | |entries|]; simpl; try (intros _; by eauto).
  destruct (run_loop _ _ _) as [e'|s] eqn:Hrun; [|done].
  intros _. apply run_loop_inl in Hrun as [-> ->]. eauto.
Qed.

(** ** Duplicates *)

(** C1, as the code has it: a duplicate occurrence of a key (one whose key
    occurs in the part [pre] of the document already processed) is left out of
    both groups and leaves the retained value as it is when the retained value
    is non-empty, or when [remove_empty_duplicates] is set and its own value is
    empty. A duplicate with a non-empty value that arrives while the retained
    value is empty replaces the retained value and is appended to the group of
    entries with a value: the first non-empty value is kept. *)
Theorem duplicate_policy (red : bool) (n : nat) (pre : list json) (s : LoopState)
    (key : string) (value : json) :
  run_loop red (init_state n) pre = inr s ->
  key ∈ doc_keys pre ->
  exists retained s',
    unique_entries s !! key = Some retained /\
    loop_body red s (JDict [(key, value)]) = inr s' /\
    ((red && negb (truthy value)) || truthy retained = true ->
       group_with_value s' = group_with_value s /\
       group_without_value s' = group_without_value s /\
       unique_entries s' = unique_entries s) /\
    (truthy retained = false -> truthy value = true ->
       group_with_value s' = group_with_value s ++ [mkEntry key value] /\
       group_without_value s' = group_without_value s /\
       unique_entries s' = <[key := value]> (unique_entries s)).
Proof.
  intros Hrun Hin.
  pose proof (run_loop_keys _ _ _ _ _ (seen_inv_init n) Hrun key) as Hk.
  rewrite app_nil_r in Hk. apply Hk in Hin as [retained Hret].
  exists retained. simpl. rewrite Hret.
  destruct (red && negb (truthy value)) eqn:Hrm.
  - eexists. split; [done|]. split; [done|]. split; [done|].
    intros _ Hv. rewrite Hv, andb_false_r in Hrm. done.
  - destruct (truthy retained) eqn:Hr.
    + eexists. split; [done|]. split; [done|]. split; [done|]. done.
    + eexists. split; [done|]. split; [done|]. split; [done|].
      intros _ Hv. simpl. by rewrite Hv.
Qed.

(** C2 at the document [[{"a": ""}, {"a": "x"}]] with [sort_by = "key"] and
    [remove_empty_duplicates = True]: the result holds the key ["a"] twice,
    once with the later value and once with the first, empty one. *)
Theorem result_repeats_key :
  exists report,
    normalize str_lower py_str
      (JList [JDict [("a", JStr "")]; JDict [("a", JStr "x")]]) "key" true
    = inr ([mkEntry "a" (JStr "x"); mkEntry "a" (JStr "")],
           mkStats 2 1 0 1 1, report) /\
    ~ NoDup (result_keys [mkEntry "a" (JStr "x"); mkEntry "a" (JStr "")]).
Proof.
  eexists. split; [reflexivity|].
  simpl. intros [Hin _]%NoDup_cons. apply Hin. by left.
Qed.


(** C4 at the same document: the first pass returns
    [[{"a": "x"}, {"a": ""}]]; the second pass, run on that result, finds one
    duplicate and returns [[{"a": "x"}]], which is not its input. *)
Theorem second_pass_differs :
  exists result stats1 report1 result2 stats2 report2,
    normalize str_lower py_str
      (JList [JDict [("a", JStr "")]; JDict [("a", JStr "x")]]) "key" true
    = inr (result, stats1, report1) /\
    normalize str_lower py_str (JList (map entry_json result)) "key" true
    = inr (result2, stats2, report2) /\
    result = [mkEntry "a" (JStr "x"); mkEntry "a" (JStr "")] /\
    result2 = [mkEntry "a" (JStr "x")] /\
    duplicates_found stats2 = 1.
Proof.
  eexists _, _, _, _, _, _. split; [reflexivity|].
  split; [reflexivity|]. done.
Qed.

(** C5: the scenario [[{"a":"x"},{"b":""},{"a":""},{"c":"y"}]] sorted by
    key. Lower-casing leaves ["a"] and ["c"] as they are. *)
Theorem scenario_sorted_by_key :
  str_lower "a" = "a" -> str_lower "c" = "c" ->
  let document :=
    JList [JDict [("a", JStr "x")]; JDict [("b", JStr "")];
           JDict [("a", JStr "")]; JDict [("c", JStr "y")]] in
  let result :=
    [mkEntry "a" (JStr "x"); mkEntry "c" (JStr "y"); mkEntry "b" (JStr "")] in
  normalize str_lower py_str document "key" true
  = inr (result, mkStats 4 1 1 2 1, {[ "a" := [JStr ""] ]}) /\
  normalize str_lower py_str document "key" false
  = inr (result, mkStats 4 1 0 2 1, {[ "a" := [JStr ""] ]}).
Proof.
  intros Ha Hc document result.
  split; apply normalize_inr; eexists _, _;
    (split; [reflexivity|]); (split; [vm_compute; reflexivity|]);
    cbn [group_with_value group_without_value stats total_entries
         duplicates_found duplicates_removed duplicates_report list_sort
         sort_insert length];
    unfold sort_key; cbn [String.eqb Ascii.eqb Bool.eqb ekey]; rewrite Ha, Hc;
    (split; [reflexivity|]); (split; [reflexivity|]); reflexivity.
Qed.

(** C6: once the file is read and parsed, the call raises the [ValueError] of
    a shape check exactly when the parsed value is not a list or one of its
    elements is not a dict with one key; then no result is returned and the
    files are as they were. *)
Theorem shape_error_exactly (fs : gmap string string) (file_path sort_by : string)
    (red modify_original : bool) (text : string) (data : json) :
  fs !! file_path = Some text ->
  json_load text = Some data ->
  let run := process_dictionary str_lower py_str json_load json_dump
               fs file_path sort_by red modify_original in
  (is_shape_error run.2 <-> bad_shape data) /\
  (bad_shape data -> run.1 = fs /\ forall returned, run.2 <> inr returned).
Proof.
  intros Hfile Hload. unfold process_dictionary. rewrite Hfile, Hload.
  destruct (normalize str_lower py_str data sort_by red)
    as [e|[[result st] report]] eqn:Hn; simpl.
  - pose proof (normalize_inl _ _ _ _ Hn) as [Herr Hbad].
    rewrite Hn in Herr. destruct Herr as [msg [= ->]].
    apply bad_shape_well_shaped in Hbad.
    split; [split; [done|intros _; by exists msg]|by intros _].
  - apply normalize_inr in Hn as (entries & s & -> & Hrun & _).
    apply run_loop_inr_shape in Hrun.
    assert (Hgood : ~ bad_shape (JList entries)).
    { rewrite bad_shape_well_shaped. simpl. by rewrite Hrun. }
    split; [|done]. split; [by intros [msg Hmsg]|done].
Qed.

(** C7: both groups of the result are sorted, stably, by the lower-cased key
    when [sort_by] is ["key"] and by the lower-cased text of the value for any
    other [sort_by]. *)
Theorem groups_sorted_stable (data : json) (sort_by : string) (red : bool) :
  well_shaped data = true ->
  exists entries s result st report,
    data = JList entries /\
    run_loop red (init_state (length entries)) entries = inr s /\
    normalize str_lower py_str data sort_by red = inr (result, st, report) /\
    exists with_value without_value,
      result = with_value ++ without_value /\
      stable_sorting (sort_key str_lower py_str sort_by)
        (group_with_value s) with_value /\
      stable_sorting (sort_key str_lower py_str sort_by)
        (group_without_value s) without_value /\
      forall item,
        sort_key str_lower py_str sort_by item
        = if decide (sort_by = "key") then str_lower (ekey item)
          else str_lower (py_str (evalue item)).
Proof.
  intros Hs.
  destruct (normalize_total data sort_by red Hs) as (result & st & report & Hn).
  pose proof Hn as (entries & s & -> & Hrun & -> & -> & ->)%normalize_inr.
  exists entries, s. eexists _, _, _.
  split; [done|]. split; [done|]. split; [exact Hn|].
  eexists _, _. split; [done|].
  split; [|split].
  - split; [exact (list_sort_sorted _ _)|].
    split; [exact (list_sort_perm _ _)|]. intros k. exact (list_sort_stable _ _ _).
  - split; [exact (list_sort_sorted _ _)|].
    split; [exact (list_sort_perm _ _)|]. intros k. exact (list_sort_stable _ _ _).
  - intros item. unfold sort_key.
    destruct (decide (sort_by = "key")) as [->|Hne]; [done|].
    by apply String.eqb_neq in Hne as ->.
Qed.


(** C9: the empty document gives the empty result and statistics that are
    all zero. *)
Theorem empty_document (sort_by : string) (red : bool) :
  normalize str_lower py_str (JList []) sort_by red
  = inr ([], mkStats 0 0 0 0 0, ∅).
Proof. reflexivity. Qed.

(** C10: on a well-shaped document the function returns statistics with
    [duplicates_removed <= duplicates_found]; [duplicates_removed] is 0 when
    [remove_empty_duplicates] is false, and both are 0 when no key occurs
    twice in the document. *)
Theorem duplicate_counters (data : json) (sort_by : string) (red : bool) :
  well_shaped data = true ->
  exists result st report,
    normalize str_lower py_str data sort_by red = inr (result, st, report) /\
    duplicates_removed st <= duplicates_found st /\
    (red = false -> duplicates_removed st = 0) /\
    (forall entries, data = JList entries -> NoDup (doc_keys entries) ->
       duplicates_found st = 0 /\ duplicates_removed st = 0).
Proof.
  intros Hs.
  destruct (normalize_total data sort_by red Hs) as (result & st & report & Hn).
  pose proof Hn as (entries & s & -> & Hrun & -> & -> & ->)%normalize_inr.
  eexists _, _, _. split; [exact Hn|]. simpl.
  pose proof (run_loop_counters _ _ _ _ Hrun)
    as (_ & f & r & Hf & Hr & Hle & Hred).
  simpl in Hf, Hr. split; [lia|]. split; [intros ->; rewrite Hr; by apply Hred|].
  intros entries' [= <-] Hnd.
  rewrite (run_loop_fresh _ [] _ _ _ (seen_inv_init _) Hnd) by
    (try done; intros k _; apply not_elem_of_nil).
  done.
Qed.

(** ** Results without a repeated key *)

(** X18: a document in which no key occurs twice gives a result in which no
    key occurs twice. *)
Theorem unique_keys_preserved (entries : list json) (sort_by : string) (red : bool)
    (result : list Entry) (st : Stats) (report : gmap string (list json)) :
  NoDup (doc_keys entries) ->
  normalize str_lower py_str (JList entries) sort_by red = inr (result, st, report) ->
  NoDup (result_keys result).
Proof.
  intros Hnd (entries' & s & [= <-] & Hrun & -> & _)%normalize_inr.
  pose proof (run_loop_fresh_groups _ [] _ _ _ (seen_inv_init _) Hnd
                (fun k _ => not_elem_of_nil k) Hrun) as (Hw & Hwo & _).
  simpl in Hw, Hwo. rewrite Hw, Hwo.
  rewrite (doc_keys_entries _ (run_loop_inr_shape _ _ _ _ Hrun)) in Hnd.
  unfold result_keys in *. revert Hnd. apply NoDup_Permutation_proper.
  apply Permutation_map. rewrite !list_sort_perm.
  apply (filter_split_perm has_value).
Qed.

Lemma second_pass_fixed (data : json) (sort_by : string) (red red2 : bool)
    (result : list Entry) (st : Stats) (report : gmap string (list json)) :
  normalize str_lower py_str data sort_by red = inr (result, st, report) ->
  NoDup (result_keys result) ->
  normalize str_lower py_str (JList (map entry_json result)) sort_by red2
  = inr (result,
         mkStats (length result) 0 0
           (entries_with_value st) (entries_without_value st), ∅).
Proof.
  intros (entries & s & -> & Hrun & -> & -> & _)%normalize_inr Hnd.
  set (w := list_sort (sort_key str_lower py_str sort_by) (group_with_value s)) in *.
  set (wo := list_sort (sort_key str_lower py_str sort_by) (group_without_value s)) in *.
  destruct (run_loop_groups red (init_state (length entries)) s entries)
    as [Hw Hwo]; [by constructor|by constructor|done|].
  assert (Hw' : Forall (fun item => has_value item = true) w)
    by (unfold w; by rewrite list_sort_perm).
  assert (Hwo' : Forall (fun item => lacks_value item = true) wo)
    by (unfold wo; by rewrite list_sort_perm).
  destruct (run_loop_total red2 (init_state (length (map entry_json (w ++ wo))))
              _ (single_pair_json (w ++ wo))) as [s2 Hrun2].
  rewrite <- doc_keys_json in Hnd.
  pose proof (run_loop_fresh_groups _ [] _ _ _ (seen_inv_init _) Hnd
                (fun k _ => not_elem_of_nil k) Hrun2) as (Hg & Hgo & Hrep).
  pose proof (run_loop_fresh _ [] _ _ _ (seen_inv_init _) Hnd
                (fun k _ => not_elem_of_nil k) Hrun2) as Hst.
  rewrite document_entries_json, List.filter_app in Hg, Hgo. simpl in Hg, Hgo, Hrep.
  rewrite (filter_all _ _ Hw'), filter_none, app_nil_r in Hg.
  2:{ eapply Forall_impl; [exact Hwo'|]. unfold has_value, lacks_value.
      intros item. by destruct (truthy _). }
  rewrite (filter_all _ _ Hwo'), filter_none in Hgo.
  2:{ eapply Forall_impl; [exact Hw'|]. unfold has_value, lacks_value.
      intros item. by intros ->. }
  apply normalize_inr. exists (map entry_json (w ++ wo)), s2.
  split; [done|]. split; [done|]. rewrite Hg, Hgo, Hrep, Hst. simpl.
  rewrite !list_sort_sorted_id by (apply list_sort_sorted).
  rewrite length_map. unfold w, wo. by rewrite !list_sort_length.
Qed.

(** X19: where the result has no repeated key, a second pass over it
    returns it as it is and finds no duplicate. *)
Theorem second_pass_identity (data : json) (sort_by : string) (red red2 : bool)
    (result : list Entry) (st : Stats) (report : gmap string (list json)) :
  normalize str_lower py_str data sort_by red = inr (result, st, report) ->
  NoDup (result_keys result) ->
  normalize str_lower py_str (JList (map entry_json result)) sort_by red2
  = inr (result,
         mkStats (length result) 0 0
           (entries_with_value st) (entries_without_value st), ∅).
Proof.
  apply second_pass_fixed.
Qed.

End Claims.

(** ** The theorems at concrete documents *)

(** C1 as stated fails at [[{"a": ""}, {"a": "x"}]] with
    [remove_empty_duplicates = True]: the second occurrence of ["a"] is
    appended to the group of entries with a value and replaces the retained
    value, and its value appears in the result. *)
Lemma later_value_promoted :
  exists s,
    run_loop true (init_state 2)
      [JDict [("a", JStr "")]; JDict [("a", JStr "x")]] = inr s /\
    group_with_value s = [mkEntry "a" (JStr "x")] /\
    group_without_value s = [mkEntry "a" (JStr "")] /\
    unique_entries s !! "a" = Some (JStr "x") /\
    normalize Sample.lower Sample.str
      (JList [JDict [("a", JStr "")]; JDict [("a", JStr "x")]]) "key" true
    = inr ([mkEntry "a" (JStr "x"); mkEntry "a" (JStr "")],
           mkStats 2 1 0 1 1, {[ "a" := [JStr "x"] ]}).
Proof.
  eexists. split; [reflexivity|]. repeat split; reflexivity.
Qed.

Lemma duplicate_policy_witness :
  run_loop true (init_state 1) [JDict [("a", JStr "")]]
  = inr (store "a" (JStr "") (init_state 1)) /\
  "a" ∈ doc_keys [JDict [("a", JStr "")]] /\
  exists retained s',
    unique_entries (store "a" (JStr "") (init_state 1)) !! "a" = Some retained /\
    loop_body true (store "a" (JStr "") (init_state 1)) (JDict [("a", JStr "x")])
    = inr s' /\
    ((true && negb (truthy (JStr "x"))) || truthy retained = true ->
       group_with_value s' = group_with_value (store "a" (JStr "") (init_state 1)) /\
       group_without_value s'
       = group_without_value (store "a" (JStr "") (init_state 1)) /\
       unique_entries s' = unique_entries (store "a" (JStr "") (init_state 1))) /\
    (truthy retained = false -> truthy (JStr "x") = true ->
       group_with_value s'
       = group_with_value (store "a" (JStr "") (init_state 1))
         ++ [mkEntry "a" (JStr "x")] /\
       group_without_value s'
       = group_without_value (store "a" (JStr "") (init_state 1)) /\
       unique_entries s'
       = <[ "a" := JStr "x" ]> (unique_entries (store "a" (JStr "") (init_state 1)))).
Proof.
  assert (Hrun : run_loop true (init_state 1) [JDict [("a", JStr "")]]
                 = inr (store "a" (JStr "") (init_state 1))) by reflexivity.
  assert (Hin : "a" ∈ doc_keys [JDict [("a", JStr "")]]) by (simpl; by left).
  split; [exact Hrun|]. split; [exact Hin|].
  exact (duplicate_policy true 1 _ _ "a" (JStr "x") Hrun Hin).
Defined.


Lemma scenario_sorted_by_key_witness :
  Sample.lower "a" = "a" /\ Sample.lower "c" = "c" /\
  normalize Sample.lower Sample.str
    (JList [JDict [("a", JStr "x")]; JDict [("b", JStr "")];
            JDict [("a", JStr "")]; JDict [("c", JStr "y")]]) "key" true
  = inr ([mkEntry "a" (JStr "x"); mkEntry "c" (JStr "y"); mkEntry "b" (JStr "")],
         mkStats 4 1 1 2 1, {[ "a" := [JStr ""] ]}) /\
  normalize Sample.lower Sample.str
    (JList [JDict [("a", JStr "x")]; JDict [("b", JStr "")];
            JDict [("a", JStr "")]; JDict [("c", JStr "y")]]) "key" false
  = inr ([mkEntry "a" (JStr "x"); mkEntry "c" (JStr "y"); mkEntry "b" (JStr "")],
         mkStats 4 1 0 2 1, {[ "a" := [JStr ""] ]}).
Proof.
  split; [reflexivity|]. split; [reflexivity|].
  apply (scenario_sorted_by_key Sample.lower Sample.str); reflexivity.
Defined.

Lemma shape_error_exactly_witness :
  let fs : gmap string string := {[ "dictionary.json" := "object" ]} in
  let table := [("object", JDict [("a", JInt 1)])] in
  let run := process_dictionary Sample.lower Sample.str (Sample.load table)
               Sample.dump fs "dictionary.json" "key" true true in
  fs !! "dictionary.json" = Some "object" /\
  Sample.load table "object" = Some (JDict [("a", JInt 1)]) /\
  (is_shape_error run.2 <-> bad_shape (JDict [("a", JInt 1)])) /\
  (bad_shape (JDict [("a", JInt 1)]) ->
   run.1 = fs /\ forall returned, run.2 <> inr returned).
Proof.
  intros fs table run.
  assert (Hfile : fs !! "dictionary.json" = Some "object") by reflexivity.
  assert (Hload : Sample.load table "object" = Some (JDict [("a", JInt 1)]))
    by reflexivity.
  split; [exact Hfile|]. split; [exact Hload|].
  exact (shape_error_exactly Sample.lower Sample.str (Sample.load table)
           Sample.dump fs "dictionary.json" "key" true true _ _ Hfile Hload).
Defined.

Lemma groups_sorted_stable_witness :
  let data := JList [JDict [("b", JStr "Y")]; JDict [("A", JStr "x")];
                     JDict [("a", JStr "")]] in
  well_shaped data = true /\
  exists entries s result st report,
    data = JList entries /\
    run_loop true (init_state (length entries)) entries = inr s /\
    normalize Sample.lower Sample.str data "value" true = inr (result, st, report) /\
    exists with_value without_value,
      result = with_value ++ without_value /\
      stable_sorting (sort_key Sample.lower Sample.str "value")
        (group_with_value s) with_value /\
      stable_sorting (sort_key Sample.lower Sample.str "value")
        (group_without_value s) without_value /\
      forall item,
        sort_key Sample.lower Sample.str "value" item
        = if decide ("value" = "key") then Sample.lower (ekey item)
          else Sample.lower (Sample.str (evalue item)).
Proof.
  intros data. split; [reflexivity|].
  apply (groups_sorted_stable Sample.lower Sample.str data "value" true).
  reflexivity.
Defined.

Lemma duplicate_counters_witness :
  let data := JList [JDict [("a", JStr "x")]; JDict [("a", JStr "")]] in
  well_shaped data = true /\
  exists result st report,
    normalize Sample.lower Sample.str data "key" true = inr (result, st, report) /\
    duplicates_removed st <= duplicates_found st /\
    (true = false -> duplicates_removed st = 0) /\
    (forall entries, data = JList entries -> NoDup (doc_keys entries) ->
       duplicates_found st = 0 /\ duplicates_removed st = 0).
Proof.
  intros data. split; [reflexivity|].
  apply (duplicate_counters Sample.lower Sample.str data "key" true).
  reflexivity.
Defined.

(** * The loop against the document *)

(** ** Earlier occurrences *)

Lemma existsb_snoc {A : Type} (f : A -> bool) (l : list A) (x : A) :
  existsb f (l ++ [x]) = existsb f l || f x.
Proof. rewrite existsb_app. simpl. by rewrite orb_false_r. Qed.

Lemma occurs_before_snoc (k : string) (pre : list Entry) (e : Entry) :
  occurs_before k (pre ++ [e]) = occurs_before k pre || String.eqb (ekey e) k.
Proof. unfold occurs_before. by rewrite existsb_snoc. Qed.

Lemma valued_before_snoc (k : string) (pre : list Entry) (e : Entry) :
  valued_before k (pre ++ [e])
  = valued_before k pre || (String.eqb (ekey e) k && has_value e).
Proof. unfold valued_before. by rewrite existsb_snoc. Qed.

Lemma valued_occurs (k : string) (pre : list Entry) :
  valued_before k pre = true -> occurs_before k pre = true.
Proof.
  unfold valued_before, occurs_before. rewrite !existsb_exists.
  intros (e & Hin & [He _]%andb_true_iff). eauto.
Qed.

Lemma not_occurs_not_valued (k : string) (pre : list Entry) :
  occurs_before k pre = false -> valued_before k pre = false.
Proof.
  intros Ho. destruct (valued_before k pre) eqn:Hv; [|done].
  apply valued_occurs in Hv. congruence.
Qed.

Lemma occurs_before_keys (k : string) (pre : list Entry) :
  occurs_before k pre = true <-> k ∈ result_keys pre.
Proof.
  unfold occurs_before, result_keys. rewrite existsb_exists, list_elem_of_fmap.
  split.
  - intros (e & Hin & He%String.eqb_eq). exists e.
    split; [done|by apply list_elem_of_In].
  - intros (e & -> & Hin). exists e.
    split; [by apply list_elem_of_In|apply String.eqb_refl].
Qed.

Lemma later_values_none (k : string) (pre : list Entry) :
  occurs_before k pre = false -> later_values k pre = [].
Proof.
  unfold later_values, occurs_before. intros Ho.
  induction pre as [|e pre IH]; [done|]. simpl in *.
  apply orb_false_iff in Ho as [-> Ho]. by apply IH.
Qed.

Lemma later_values_snoc (k : string) (pre : list Entry) (e : Entry) :
  later_values k (pre ++ [e])
  = if String.eqb (ekey e) k
    then (if occurs_before k pre then later_values k pre ++ [evalue e] else [])
    else later_values k pre.
Proof.
  unfold later_values. rewrite List.filter_app. simpl.
  destruct (String.eqb (ekey e) k) eqn:He; [|by rewrite app_nil_r].
  rewrite map_app. simpl.
  destruct (occurs_before k pre) eqn:Ho.
  - unfold occurs_before in Ho. apply existsb_exists in Ho as (x & Hin & Hx).
    assert (Hin' : In x (List.filter (fun e => String.eqb (ekey e) k) pre))
      by (apply filter_In; done).
    destruct (List.filter _ pre); [done|]. done.
  - assert (Hnil : List.filter (fun e => String.eqb (ekey e) k) pre = []).
    { unfold occurs_before in Ho. induction pre as [|x pre IH]; [done|].
      simpl in *. apply orb_false_iff in Ho as [-> Ho]. by apply IH. }
    by rewrite Hnil.
Qed.

(** ** One iteration *)

Lemma retained_inv_keep (pre : list Entry) (s s1 : LoopState) (k : string) (v : json) :
  retained_inv pre s ->
  occurs_before k pre = true ->
  truthy v = false \/ valued_before k pre = true ->
  unique_entries s1 = unique_entries s ->
  retained_inv (pre ++ [mkEntry k v]) s1.
Proof.
  intros Hinv Ho Hv Hue k'. rewrite Hue, (Hinv k').
  rewrite occurs_before_snoc, valued_before_snoc. unfold has_value. simpl.
  destruct (String.eqb k k') eqn:Hk; [|by rewrite !orb_false_r].
  apply String.eqb_eq in Hk as <-. rewrite Ho. simpl.
  destruct Hv as [->| ->]; [by rewrite orb_false_r|done].
Qed.

Lemma retained_inv_store (pre : list Entry) (s s1 : LoopState) (k : string) (v : json) :
  retained_inv pre s ->
  valued_before k pre = false ->
  unique_entries s1 = <[k := v]> (unique_entries s) ->
  retained_inv (pre ++ [mkEntry k v]) s1.
Proof.
  intros Hinv Hv Hue k'. rewrite Hue.
  rewrite occurs_before_snoc, valued_before_snoc. unfold has_value. simpl.
  destruct (decide (k = k')) as [<-|Hne].
  - rewrite lookup_insert_eq, String.eqb_refl, Hv, orb_true_r. done.
  - rewrite lookup_insert_ne by done. rewrite (Hinv k').
    apply String.eqb_neq in Hne as ->. by rewrite !orb_false_r.
Qed.

Lemma report_inv_same (pre : list Entry) (s s1 : LoopState) (k : string) (v : json) :
  report_inv pre s ->
  occurs_before k pre = false ->
  duplicates_report s1 = duplicates_report s ->
  report_inv (pre ++ [mkEntry k v]) s1.
Proof.
  intros Hinv Ho Hrep k'. rewrite Hrep, (Hinv k'), later_values_snoc. simpl.
  destruct (String.eqb k k') eqn:Hk; [|done].
  apply String.eqb_eq in Hk as <-. by rewrite Ho, later_values_none.
Qed.

Lemma report_inv_note (pre : list Entry) (s s1 : LoopState) (k : string) (v : json) :
  report_inv pre s ->
  occurs_before k pre = true ->
  duplicates_report s1
  = <[k := default [] (duplicates_report s !! k) ++ [v]]> (duplicates_report s) ->
  report_inv (pre ++ [mkEntry k v]) s1.
Proof.
  intros Hinv Ho Hrep k'. rewrite Hrep, later_values_snoc. simpl.
  destruct (decide (k = k')) as [<-|Hne].
  - rewrite lookup_insert_eq, String.eqb_refl, Ho, (Hinv k).
    by destruct (later_values k pre).
  - rewrite lookup_insert_ne by done. rewrite (Hinv k').
    by apply String.eqb_neq in Hne as ->.
Qed.

Lemma retained_lookup (pre : list Entry) (s : LoopState) (k : string) :
  retained_inv pre s ->
  match unique_entries s !! k with
  | Some r => occurs_before k pre = true /\ truthy r = valued_before k pre
  | None => occurs_before k pre = false /\ valued_before k pre = false
  end.
Proof.
  intros Hinv. specialize (Hinv k).
  destruct (unique_entries s !! k) as [r|], (occurs_before k pre) eqn:Ho;
    simpl in Hinv; try done.
  - by injection Hinv as ->.
  - by split; [|apply not_occurs_not_valued].
Qed.

Lemma body_path_spec (red : bool) (pre : list Entry) (s s1 : LoopState)
    (k : string) (v : json) :
  retained_inv pre s -> report_inv pre s ->
  body_path red s k v s1 ->
  retained_inv (pre ++ [mkEntry k v]) s1 /\
  report_inv (pre ++ [mkEntry k v]) s1 /\
  group_with_value s1
  = group_with_value s ++ (if keeps_value pre (mkEntry k v) then [mkEntry k v] else []) /\
  group_without_value s1
  = group_without_value s
    ++ (if keeps_empty red pre (mkEntry k v) then [mkEntry k v] else []) /\
  duplicates_found (stats s1)
  = duplicates_found (stats s) + (if is_duplicate pre (mkEntry k v) then 1 else 0) /\
  duplicates_removed (stats s1)
  = duplicates_removed (stats s) + (if is_removed red pre (mkEntry k v) then 1 else 0) /\
  total_entries (stats s1) = total_entries (stats s).
Proof.
  intros Hinv Hrep Hp. pose proof (retained_lookup pre s k Hinv) as Hk.
  unfold keeps_value, keeps_empty, is_duplicate, is_removed, has_value, lacks_value.
  cbn [ekey evalue].
  destruct Hp as [Hnone|r Hr -> Hv|r Hr Hrm Htr|r Hr Hrm Htr];
    [rewrite Hnone in Hk|rewrite Hr in Hk..]; destruct Hk as [Ho Hval].
  - split; [by apply (retained_inv_store pre s)|].
    split; [by apply (report_inv_same pre s)|].
    rewrite Ho, Hval. simpl. destruct (truthy v); simpl;
      rewrite ?app_nil_r, ?orb_true_r, ?Nat.add_0_r; done.
  - split; [apply (retained_inv_keep pre s); auto|].
    split; [by apply (report_inv_note pre s)|].
    rewrite Ho, Hv. simpl. rewrite ?andb_false_r, !app_nil_r. simpl.
    repeat split; lia.
  - rewrite Htr in Hval.
    split; [apply (retained_inv_keep pre s); auto|].
    split; [by apply (report_inv_note pre s)|].
    rewrite Ho, <- Hval. simpl. rewrite Hrm, !andb_false_r. simpl.
    rewrite !app_nil_r. repeat split; lia.
  - rewrite Htr in Hval.
    split; [by apply (retained_inv_store pre (note_duplicate k v s))|].
    split; [by apply (report_inv_note pre s)|].
    rewrite Ho, <- Hval. simpl. rewrite Hrm.
    destruct (truthy v) eqn:Hv; simpl.
    + rewrite !app_nil_r. repeat split; lia.
    + rewrite andb_true_r in Hrm. rewrite Hrm. simpl.
      rewrite !app_nil_r. repeat split; lia.
Qed.

(** ** The whole loop *)

Lemma run_loop_spec (red : bool) (pre : list Entry) (s s' : LoopState)
    (data : list json) :
  retained_inv pre s -> report_inv pre s ->
  run_loop red s data = inr s' ->
  retained_inv (pre ++ document_entries data) s' /\
  report_inv (pre ++ document_entries data) s' /\
  group_with_value s'
  = group_with_value s ++ select_from keeps_value pre (document_entries data) /\
  group_without_value s'
  = group_without_value s
    ++ select_from (keeps_empty red) pre (document_entries data) /\
  duplicates_found (stats s')
  = duplicates_found (stats s)
    + length (select_from is_duplicate pre (document_entries data)) /\
  duplicates_removed (stats s')
  = duplicates_removed (stats s)
    + length (select_from (is_removed red) pre (document_entries data)) /\
  total_entries (stats s') = total_entries (stats s).
Proof.
  revert pre s. induction data as [|entry rest IH]; intros pre s Hinv Hrep Hrun.
  - simpl in *. injection Hrun as <-. rewrite !app_nil_r, !Nat.add_0_r. done.
  - apply run_loop_inr_cons in Hrun as (k & v & s1 & -> & Hp & Hrun).
    change (document_entries (JDict [(k, v)] :: rest))
      with (mkEntry k v :: document_entries rest).
    destruct (body_path_spec _ _ _ _ _ _ Hinv Hrep Hp)
      as (Hinv1 & Hrep1 & Hw & Hwo & Hf & Hr & Ht).
    destruct (IH _ _ Hinv1 Hrep1 Hrun) as (Hinv' & Hrep' & Hw' & Hwo' & Hf' & Hr' & Ht').
    rewrite <- !app_assoc in Hinv', Hrep'. simpl in Hinv', Hrep'.
    split; [done|]. split; [done|].
    rewrite Hw', Hwo', Hf', Hr', Ht', Hw, Hwo, Hf, Hr, Ht.
    cbn [select_from]. rewrite !length_app, <- !app_assoc.
    repeat split; try done.
    + destruct (is_duplicate _ _); simpl; lia.
    + destruct (is_removed _ _ _); simpl; lia.
Qed.

Lemma retained_inv_init (n : nat) : retained_inv [] (init_state n).
Proof. intros k. simpl. by rewrite lookup_empty. Qed.

Lemma report_inv_init (n : nat) : report_inv [] (init_state n).
Proof. intros k. simpl. by rewrite lookup_empty. Qed.

(** ** Selections *)

Lemma elem_of_select_from (keep : list Entry -> Entry -> bool)
    (pre l : list Entry) (e : Entry) :
  e ∈ select_from keep pre l <->
  exists l1 l2, l = l1 ++ e :: l2 /\ keep (pre ++ l1) e = true.
Proof.
  revert pre. induction l as [|x rest IH]; intros pre; simpl.
  - split; [by intros ?%elem_of_nil|]. intros (l1 & l2 & Hl & _).
    by destruct l1.
  - rewrite elem_of_app, IH. split.
    + intros [Hx|(l1 & l2 & -> & Hk)].
      * destruct (keep pre x) eqn:Hkeep; [|by apply elem_of_nil in Hx].
        apply list_elem_of_singleton in Hx as ->.
        exists [], rest. by rewrite app_nil_r.
      * exists (x :: l1), l2. split; [done|].
        by rewrite <- app_assoc in Hk.
    + intros ([|y l1] & l2 & Hl & Hk); simpl in Hl; injection Hl as -> ->.
      * left. rewrite app_nil_r in Hk. rewrite Hk. by left.
      * right. exists l1, l2. split; [done|]. by rewrite <- app_assoc.
Qed.

Lemma select_from_sublist (keep : list Entry -> Entry -> bool) (pre l : list Entry) :
  sublist (select_from keep pre l) l.
Proof.
  revert pre. induction l as [|x rest IH]; intros pre; simpl; [done|].
  destruct (keep pre x); simpl.
  - by apply sublist_skip.
  - by apply sublist_cons.
Qed.

Section SelectOnce.
(** A selection that marks the key of what it keeps, and keeps nothing whose
    key is marked, keeps each key once. *)
Variable keep : list Entry -> Entry -> bool.
Variable marked : string -> list Entry -> bool.
Hypothesis keep_unmarked :
  forall pre e, keep pre e = true -> marked (ekey e) pre = false.
Hypothesis keep_marks :
  forall pre e, keep pre e = true -> marked (ekey e) (pre ++ [e]) = true.
Hypothesis marked_mono :
  forall k pre e, marked k pre = true -> marked k (pre ++ [e]) = true.

Lemma select_from_unmarked (pre l : list Entry) (e : Entry) :
  e ∈ select_from keep pre l -> marked (ekey e) pre = false.
Proof.
  intros (l1 & l2 & _ & Hk)%elem_of_select_from.
  apply keep_unmarked in Hk. clear l2.
  induction l1 as [|x l1 IH] using rev_ind; [by rewrite app_nil_r in Hk|].
  apply IH. rewrite app_assoc in Hk.
  destruct (marked (ekey e) (pre ++ l1)) eqn:Hm; [|done].
  apply (marked_mono _ _ x) in Hm. congruence.
Qed.

Lemma select_from_once (pre l : list Entry) :
  NoDup (result_keys (select_from keep pre l)).
Proof.
  revert pre. induction l as [|x rest IH]; intros pre; simpl; [constructor|].
  destruct (keep pre x) eqn:Hkeep; simpl; [|apply IH].
  apply NoDup_cons. split; [|apply IH].
  unfold result_keys. intros (e & He & Hin)%list_elem_of_fmap.
  apply select_from_unmarked in Hin. rewrite <- He in Hin.
  apply keep_marks in Hkeep. congruence.
Qed.

End SelectOnce.

Lemma select_value_once (pre l : list Entry) :
  NoDup (result_keys (select_from keeps_value pre l)).
Proof.
  apply (select_from_once keeps_value valued_before).
  - intros p e [_ H]%andb_true_iff. by apply negb_true_iff in H.
  - intros p e [H _]%andb_true_iff.
    by rewrite valued_before_snoc, String.eqb_refl, H, orb_true_r.
  - intros k p e H. by rewrite valued_before_snoc, H.
Qed.

Lemma select_empty_once (pre l : list Entry) :
  NoDup (result_keys (select_from (keeps_empty true) pre l)).
Proof.
  apply (select_from_once (keeps_empty true) occurs_before).
  - intros p e [_ H]%andb_true_iff. by apply negb_true_iff in H.
  - intros p e _. by rewrite occurs_before_snoc, String.eqb_refl, orb_true_r.
  - intros k p e H. by rewrite occurs_before_snoc, H.
Qed.

Lemma select_covers_keys (red : bool) (pre l : list Entry) (k : string) :
  occurs_before k pre = false ->
  k ∈ result_keys l ->
  k ∈ result_keys (select_from keeps_value pre l)
  \/ k ∈ result_keys (select_from (keeps_empty red) pre l).
Proof.
  revert pre. induction l as [|x rest IH]; intros pre Ho Hin; simpl in *.
  - by apply elem_of_nil in Hin.
  - unfold result_keys. rewrite !fmap_app, !elem_of_app. fold result_keys.
    destruct (String.eqb (ekey x) k) eqn:Hx.
    + apply String.eqb_eq in Hx as <-.
      pose proof (not_occurs_not_valued _ _ Ho) as Hv.
      unfold keeps_value, keeps_empty, lacks_value, has_value in *.
      rewrite Ho, Hv, orb_true_r. simpl.
      destruct (truthy (evalue x)); simpl.
      * left. left. by left.
      * right. left. by left.
    + apply elem_of_cons in Hin as [->|Hin];
        [by rewrite String.eqb_refl in Hx|].
      destruct (IH (pre ++ [x])) as [H|H]; [|done|by left; right|by right; right].
      by rewrite occurs_before_snoc, Ho, Hx.
Qed.

Lemma select_value_covers (pre l : list Entry) (k : string) :
  valued_before k pre = false ->
  valued_before k l = true ->
  k ∈ result_keys (select_from keeps_value pre l).
Proof.
  revert pre. induction l as [|x rest IH]; intros pre Hp Hl; simpl in *; [done|].
  unfold result_keys. rewrite fmap_app, elem_of_app. fold result_keys.
  destruct (String.eqb (ekey x) k && has_value x) eqn:Hx.
  - left. apply andb_true_iff in Hx as [<-%String.eqb_eq Hv].
    unfold keeps_value. rewrite Hv, Hp. simpl. by left.
  - right. apply IH; [|done]. by rewrite valued_before_snoc, Hp, Hx.
Qed.

Lemma select_value_has_value (pre l : list Entry) :
  Forall (fun e => has_value e = true) (select_from keeps_value pre l).
Proof.
  apply Forall_forall. intros e (l1 & l2 & _ & Hk)%elem_of_select_from.
  by apply andb_true_iff in Hk as [? _].
Qed.

Lemma select_empty_lacks_value (red : bool) (pre l : list Entry) :
  Forall (fun e => lacks_value e = true) (select_from (keeps_empty red) pre l).
Proof.
  apply Forall_forall. intros e (l1 & l2 & _ & Hk)%elem_of_select_from.
  by apply andb_true_iff in Hk as [[? _]%andb_true_iff _].
Qed.

Lemma lacks_not_has (l : list Entry) :
  Forall (fun e => lacks_value e = true) l -> Forall (fun e => has_value e = false) l.
Proof.
  intros H. eapply Forall_impl; [exact H|].
  unfold lacks_value, has_value. intros e. by destruct (truthy _).
Qed.

Lemma has_not_lacks (l : list Entry) :
  Forall (fun e => has_value e = true) l -> Forall (fun e => lacks_value e = false) l.
Proof.
  intros H. eapply Forall_impl; [exact H|].
  unfold lacks_value, has_value. by intros e ->.
Qed.

Lemma run_loop_report_empty (red : bool) (s s' : LoopState) (data : list json) :
  (duplicates_report s = ∅ <-> duplicates_found (stats s) = 0) ->
  run_loop red s data = inr s' ->
  (duplicates_report s' = ∅ <-> duplicates_found (stats s') = 0).
Proof.
  revert s. induction data as [|entry rest IH]; intros s Hs Hrun.
  - simpl in Hrun. by injection Hrun as <-.
  - apply run_loop_inr_cons in Hrun as (k & v & s1 & -> & Hp & Hrun).
    apply (IH s1); [|done].
    destruct Hp as [_|r _ _ _|r _ _ _|r _ _ _]; simpl; [done|..];
      (split; [intros H; by apply insert_non_empty in H|done]).
Qed.

Lemma valued_before_app (k : string) (l1 l2 : list Entry) :
  valued_before k (l1 ++ l2) = valued_before k l1 || valued_before k l2.
Proof. unfold valued_before. apply existsb_app. Qed.

Lemma valued_before_elem (k : string) (l : list Entry) (e : Entry) :
  e ∈ l -> ekey e = k -> has_value e = true -> valued_before k l = true.
Proof.
  intros Hin Hk Hv. unfold valued_before. apply existsb_exists. exists e.
  split; [by apply list_elem_of_In|]. by rewrite Hk, String.eqb_refl, Hv.
Qed.

Lemma size_keys_snoc (pre : list Entry) (x : Entry) :
  size (list_to_set (result_keys (pre ++ [x])) : gset string)
  = size (list_to_set (result_keys pre) : gset string)
    + (if occurs_before (ekey x) pre then 0 else 1).
Proof.
  unfold result_keys. rewrite fmap_app, list_to_set_app_L. simpl.
  rewrite union_empty_r_L.
  destruct (occurs_before (ekey x) pre) eqn:Ho.
  - apply occurs_before_keys in Ho.
    replace (list_to_set (ekey <$> pre) ∪ {[ekey x]} : gset string)
      with (list_to_set (ekey <$> pre) : gset string);
      [by rewrite Nat.add_0_r|].
    apply set_eq. intros k. rewrite elem_of_union, elem_of_singleton.
    rewrite !elem_of_list_to_set. unfold result_keys in Ho.
    split; [by left|]. by intros [?| ->].
  - rewrite size_union, size_singleton; [reflexivity|].
    intros k Hk ->%elem_of_singleton. apply elem_of_list_to_set in Hk.
    apply (occurs_before_keys (ekey x) pre) in Hk. congruence.
Qed.

Lemma select_duplicates_count (pre l : list Entry) :
  length (select_from is_duplicate pre l)
  + size (list_to_set (result_keys (pre ++ l)) : gset string)
  = length l + size (list_to_set (result_keys pre) : gset string).
Proof.
  revert pre. induction l as [|x rest IH]; intros pre.
  - rewrite app_nil_r. simpl. lia.
  - specialize (IH (pre ++ [x])). rewrite <- app_assoc in IH. simpl in IH.
    rewrite size_keys_snoc in IH. simpl. rewrite length_app.
    unfold is_duplicate at 1. destruct (occurs_before (ekey x) pre); simpl; lia.
Qed.

Lemma report_size_insert_new (m : gmap string (list json)) (k : string)
    (vs : list json) :
  m !! k = None -> report_size (<[k := vs]> m) = length vs + report_size m.
Proof.
  intros Hk. unfold report_size. rewrite map_fold_insert_L; [done| |done].
  intros. lia.
Qed.

Lemma report_size_insert (m : gmap string (list json)) (k : string) (v : json) :
  report_size (<[k := default [] (m !! k) ++ [v]]> m) = S (report_size m).
Proof.
  destruct (m !! k) as [l|] eqn:Hk; simpl.
  - rewrite <- (insert_delete_eq m).
    rewrite report_size_insert_new by apply lookup_delete_eq.
    rewrite <- (insert_delete_id m k l Hk) at 2.
    rewrite report_size_insert_new by apply lookup_delete_eq.
    rewrite length_app. simpl. lia.
  - by rewrite report_size_insert_new.
Qed.

Lemma run_loop_report_size (red : bool) (s s' : LoopState) (data : list json) :
  report_size (duplicates_report s) = duplicates_found (stats s) ->
  run_loop red s data = inr s' ->
  report_size (duplicates_report s') = duplicates_found (stats s').
Proof.
  revert s. induction data as [|entry rest IH]; intros s Hs Hrun.
  - simpl in Hrun. by injection Hrun as <-.
  - apply run_loop_inr_cons in Hrun as (k & v & s1 & -> & Hp & Hrun).
    apply (IH s1); [|done].
    destruct Hp as [_|r _ _ _|r _ _ _|r _ _ _]; simpl; [done|..];
      by rewrite report_size_insert, Hs.
Qed.

(** * What [normalize] returns, in terms of the document *)

Section Returns.
Variable str_lower : string -> string.
Variable py_str : json -> string.

Lemma normalize_returns (entries : list json) (sort_by : string) (red : bool)
    (result : list Entry) (st : Stats) (report : gmap string (list json)) :
  normalize str_lower py_str (JList entries) sort_by red = inr (result, st, report) ->
  result
  = list_sort (sort_key str_lower py_str sort_by)
      (select keeps_value (document_entries entries))
    ++ list_sort (sort_key str_lower py_str sort_by)
         (select (keeps_empty red) (document_entries entries)) /\
  st = mkStats (length entries)
         (length (select is_duplicate (document_entries entries)))
         (length (select (is_removed red) (document_entries entries)))
         (length (select keeps_value (document_entries entries)))
         (length (select (keeps_empty red) (document_entries entries))) /\
  (forall k,
     report !! k
     = match later_values k (document_entries entries) with
       | [] => None
       | vs => Some vs
       end) /\
  (report = ∅ <-> duplicates_found st = 0).
Proof.
  intros (entries' & s & [= <-] & Hrun & -> & -> & ->)%normalize_inr.
  destruct (run_loop_spec red [] _ _ _ (retained_inv_init _) (report_inv_init _) Hrun)
    as (_ & Hrep & Hw & Hwo & Hf & Hr & Ht).
  assert (Hemp : duplicates_report s = ∅ <-> duplicates_found (stats s) = 0)
    by (by apply (run_loop_report_empty red (init_state (length entries)) s entries)).
  simpl in Hw, Hwo, Hf, Hr, Ht, Hrep. unfold select.
  split; [by rewrite Hw, Hwo|].
  split; [by rewrite Hw, Hwo, Hf, Hr, Ht|].
  split; [exact Hrep|exact Hemp].
Qed.

(** X1: on a well-shaped document the result is the entries the loop keeps,
    those with a value first, each group sorted. *)
Theorem result_is_kept_entries (entries : list json) (sort_by : string) (red : bool) :
  well_shaped (JList entries) = true ->
  exists st report,
    normalize str_lower py_str (JList entries) sort_by red
    = inr (list_sort (sort_key str_lower py_str sort_by)
             (select keeps_value (document_entries entries))
           ++ list_sort (sort_key str_lower py_str sort_by)
                (select (keeps_empty red) (document_entries entries)),
           st, report).
Proof.
  intros Hs.
  destruct (normalize_total str_lower py_str _ sort_by red Hs)
    as (result & st & report & Hn).
  pose proof (normalize_returns _ _ _ _ _ _ Hn) as (-> & _).
  by exists st, report.
Qed.

(** X2: the statistics count the document: its length, its duplicate
    entries, the duplicates removed for being empty, and the two groups. *)
Theorem stats_count_document (entries : list json) (sort_by : string) (red : bool) :
  well_shaped (JList entries) = true ->
  exists result report,
    normalize str_lower py_str (JList entries) sort_by red
    = inr (result,
           mkStats (length entries)
             (length (select is_duplicate (document_entries entries)))
             (length (select (is_removed red) (document_entries entries)))
             (length (select keeps_value (document_entries entries)))
             (length (select (keeps_empty red) (document_entries entries))),
           report).
Proof.
  intros Hs.
  destruct (normalize_total str_lower py_str _ sort_by red Hs)
    as (result & st & report & Hn).
  pose proof (normalize_returns _ _ _ _ _ _ Hn) as (_ & -> & _).
  by exists result, report.
Qed.

(** X3: the duplicates report has an item for exactly the keys that occur
    more than once, and lists the values of the second and later
    occurrences of the key in document order. *)
Theorem report_lists_later_values (entries : list json) (sort_by : string)
    (red : bool) (result : list Entry) (st : Stats)
    (report : gmap string (list json)) (k : string) :
  normalize str_lower py_str (JList entries) sort_by red = inr (result, st, report) ->
  report !! k
  = match later_values k (document_entries entries) with
    | [] => None
    | vs => Some vs
    end.
Proof. intros Hn. by apply (normalize_returns _ _ _ _ _ _ Hn). Qed.

(** X4: an entry is in the result exactly when it stands somewhere in the
    document where the loop keeps it: with a value and no earlier value for
    its key, or without a value and kept as an empty entry. *)
Theorem result_membership (entries : list json) (sort_by : string) (red : bool)
    (result : list Entry) (st : Stats) (report : gmap string (list json))
    (e : Entry) :
  normalize str_lower py_str (JList entries) sort_by red = inr (result, st, report) ->
  (e ∈ result <->
   exists pre post,
     document_entries entries = pre ++ e :: post /\
     keeps_value pre e || keeps_empty red pre e = true).
Proof.
  intros Hn. pose proof (normalize_returns _ _ _ _ _ _ Hn) as (-> & _).
  rewrite elem_of_app, !list_sort_perm. unfold select.
  rewrite !elem_of_select_from. simpl. split.
  - intros [(l1 & l2 & Hl & Hk)|(l1 & l2 & Hl & Hk)]; exists l1, l2;
      rewrite Hk; by rewrite ?orb_true_r.
  - intros (l1 & l2 & Hl & [Hk|Hk]%orb_true_iff); [left|right]; by exists l1, l2.
Qed.

(** X5: no two entries of the result that have a value share a key; with
    [remove_empty_duplicates] on, no two entries without a value do. *)
Theorem each_group_keys_unique (entries : list json) (sort_by : string) (red : bool)
    (result : list Entry) (st : Stats) (report : gmap string (list json)) :
  normalize str_lower py_str (JList entries) sort_by red = inr (result, st, report) ->
  NoDup (result_keys (List.filter has_value result)) /\
  (red = true -> NoDup (result_keys (List.filter lacks_value result))).
Proof.
  intros Hn. pose proof (normalize_returns _ _ _ _ _ _ Hn) as (-> & _).
  set (K := sort_key str_lower py_str sort_by).
  set (E := document_entries entries).
  assert (Hw : Forall (fun e => has_value e = true) (list_sort K (select keeps_value E)))
    by (rewrite list_sort_perm; apply select_value_has_value).
  assert (Hwo : Forall (fun e => lacks_value e = true)
                  (list_sort K (select (keeps_empty red) E)))
    by (rewrite list_sort_perm; apply select_empty_lacks_value).
  rewrite !List.filter_app.
  rewrite (filter_all _ _ Hw), (filter_none _ _ (lacks_not_has _ Hwo)).
  rewrite (filter_all _ _ Hwo), (filter_none _ _ (has_not_lacks _ Hw)).
  rewrite app_nil_r. simpl. unfold result_keys. split.
  - rewrite list_sort_perm. apply select_value_once.
  - intros ->. rewrite list_sort_perm. apply select_empty_once.
Qed.

(** X6: the keys of the result are the keys of the document: none is lost
    and none is added. *)
Theorem result_keys_are_document_keys (entries : list json) (sort_by : string)
    (red : bool) (result : list Entry) (st : Stats)
    (report : gmap string (list json)) (k : string) :
  normalize str_lower py_str (JList entries) sort_by red = inr (result, st, report) ->
  (k ∈ result_keys result <-> k ∈ doc_keys entries).
Proof.
  intros Hn. pose proof (normalize_returns _ _ _ _ _ _ Hn) as (-> & _).
  apply normalize_inr in Hn as (entries' & s & [= <-] & Hrun & _).
  rewrite (doc_keys_entries _ (run_loop_inr_shape _ _ _ _ Hrun)).
  unfold result_keys at 1. rewrite fmap_app, elem_of_app, !list_sort_perm.
  fold (result_keys (select keeps_value (document_entries entries))).
  fold (result_keys (select (keeps_empty red) (document_entries entries))).
  split.
  - unfold result_keys, select.
    intros [H|H]; apply list_elem_of_fmap in H as (e & -> & Hin);
      apply list_elem_of_fmap_2;
      (eapply elem_of_sublist; [exact Hin|apply select_from_sublist]).
  - intros Hin. by apply (select_covers_keys red []).
Qed.

(** X7: in the result every entry with a value comes before every entry
    without one, and the two counts of the statistics are the sizes of the
    two parts. *)
Theorem values_before_empties (entries : list json) (sort_by : string) (red : bool)
    (result : list Entry) (st : Stats) (report : gmap string (list json)) :
  normalize str_lower py_str (JList entries) sort_by red = inr (result, st, report) ->
  exists with_value without_value,
    result = with_value ++ without_value /\
    Forall (fun e => has_value e = true) with_value /\
    Forall (fun e => lacks_value e = true) without_value /\
    length with_value = entries_with_value st /\
    length without_value = entries_without_value st.
Proof.
  intros Hn. pose proof (normalize_returns _ _ _ _ _ _ Hn) as (-> & -> & _).
  eexists _, _. split; [done|]. simpl. rewrite !list_sort_length.
  split; [rewrite list_sort_perm; apply select_value_has_value|].
  split; [rewrite list_sort_perm; apply select_empty_lacks_value|done].
Qed.

(** X10: the duplicates report is empty exactly when no duplicate was
    found; this is the test of line 89 for printing the warning. *)
Theorem report_empty_iff (entries : list json) (sort_by : string) (red : bool)
    (result : list Entry) (st : Stats) (report : gmap string (list json)) :
  normalize str_lower py_str (JList entries) sort_by red = inr (result, st, report) ->
  (report = ∅ <-> duplicates_found st = 0).
Proof. intros Hn. by apply (normalize_returns _ _ _ _ _ _ Hn). Qed.

(** X20: the report lists as many values, over all its keys, as
    [duplicates_found] says. *)
Theorem report_size_is_duplicates_found (data : json) (sort_by : string) (red : bool)
    (result : list Entry) (st : Stats) (report : gmap string (list json)) :
  normalize str_lower py_str data sort_by red = inr (result, st, report) ->
  report_size report = duplicates_found st.
Proof.
  intros (entries & s & -> & Hrun & -> & -> & ->)%normalize_inr. simpl.
  by apply (run_loop_report_size red (init_state (length entries)) s entries).
Qed.

(** X11: [sort_by] only orders the result: for another [sort_by] the
    function returns the same statistics, the same report and a permutation
    of the result. *)
Theorem sort_by_only_orders (data : json) (sort_by sort_by' : string) (red : bool)
    (result : list Entry) (st : Stats) (report : gmap string (list json)) :
  normalize str_lower py_str data sort_by red = inr (result, st, report) ->
  exists result',
    normalize str_lower py_str data sort_by' red = inr (result', st, report) /\
    Permutation result result'.
Proof.
  intros (entries & s & -> & Hrun & -> & -> & ->)%normalize_inr.
  eexists. split.
  - apply normalize_inr. exists entries, s. by repeat split.
  - by rewrite !list_sort_perm.
Qed.

(** X12: the result has as many entries as the two counts say, no more than
    the document, and no fewer than the document less the duplicates
    found. *)
Theorem result_size_bounds (data : json) (sort_by : string) (red : bool)
    (result : list Entry) (st : Stats) (report : gmap string (list json)) :
  normalize str_lower py_str data sort_by red = inr (result, st, report) ->
  length result = entries_with_value st + entries_without_value st /\
  length result <= total_entries st /\
  total_entries st <= length result + duplicates_found st.
Proof.
  intros (entries & s & -> & Hrun & -> & -> & ->)%normalize_inr.
  pose proof (run_loop_counters _ _ _ _ Hrun) as [Htot _].
  pose proof (dropped_conservation _ _ _ _ _ (seen_inv_init _) Hrun) as Hc.
  pose proof (dropped_le_found _ _ _ _ _ (seen_inv_init _) Hrun) as Hd.
  unfold output_size in Hc. rewrite length_app, !list_sort_length.
  simpl in *. lia.
Qed.

(** X8: with [remove_empty_duplicates] on, the keys of the result are
    distinct exactly when no key whose first entry has no value is given a
    value by a later entry. *)
Theorem unique_keys_exactly (entries : list json) (sort_by : string)
    (result : list Entry) (st : Stats) (report : gmap string (list json)) :
  normalize str_lower py_str (JList entries) sort_by true = inr (result, st, report) ->
  (NoDup (result_keys result) <->
   forall pre e post,
     document_entries entries = pre ++ e :: post ->
     occurs_before (ekey e) pre = false ->
     has_value e = false ->
     valued_before (ekey e) post = false).
Proof.
  intros Hn. pose proof (normalize_returns _ _ _ _ _ _ Hn) as (-> & _).
  set (E := document_entries entries).
  unfold result_keys at 1. rewrite fmap_app, !list_sort_perm.
  fold (result_keys (select keeps_value E)).
  fold (result_keys (select (keeps_empty true) E)).
  rewrite NoDup_app. unfold select. split.
  - intros (_ & Hdisj & _) pre e post HE Ho Hv.
    destruct (valued_before (ekey e) post) eqn:Hpost; [|done].
    exfalso. apply (Hdisj (ekey e)).
    + apply select_value_covers; [done|].
      rewrite HE, valued_before_app. simpl. by rewrite Hpost, !orb_true_r.
    + apply list_elem_of_fmap_2, elem_of_select_from.
      exists pre, post. split; [done|]. simpl.
      unfold keeps_empty, lacks_value, has_value in *.
      by rewrite Hv, Ho, (not_occurs_not_valued _ _ Ho).
  - intros Hcond. split; [apply select_value_once|].
    split; [|apply select_empty_once].
    intros k (e' & -> & Hin')%list_elem_of_fmap (e & Hk & Hin)%list_elem_of_fmap.
    apply elem_of_select_from in Hin as (l1 & l2 & HE & Hkeep). simpl in Hkeep.
    apply andb_true_iff in Hkeep as [[Hl Hv1]%andb_true_iff Ho].
    simpl in Ho. apply negb_true_iff in Ho, Hv1.
    assert (Hhas : has_value e = false)
      by (unfold lacks_value, has_value in *; by destruct (truthy _)).
    pose proof (Hcond l1 e l2 HE Ho Hhas) as Hpost.
    assert (Hnone : valued_before (ekey e) E = false).
    { fold E in HE. rewrite HE, valued_before_app. simpl.
      by rewrite Hv1, Hhas, Hpost, andb_false_r. }
    pose proof (select_value_has_value [] E) as Hall.
    rewrite Forall_forall in Hall. pose proof (Hall _ Hin') as Hv'.
    assert (HinE : e' ∈ E)
      by (eapply elem_of_sublist; [exact Hin'|apply select_from_sublist]).
    rewrite (valued_before_elem (ekey e) E e' HinE Hk Hv') in Hnone. done.
Qed.

(** X9: [duplicates_found] is the number of entries of the document less
    the number of distinct keys. *)
Theorem duplicates_found_counts (entries : list json) (sort_by : string) (red : bool)
    (result : list Entry) (st : Stats) (report : gmap string (list json)) :
  normalize str_lower py_str (JList entries) sort_by red = inr (result, st, report) ->
  duplicates_found st + size (list_to_set (doc_keys entries) : gset string)
  = total_entries st.
Proof.
  intros Hn. pose proof (normalize_returns _ _ _ _ _ _ Hn) as (_ & -> & _).
  apply normalize_inr in Hn as (entries' & s & [= <-] & Hrun & _).
  pose proof (run_loop_inr_shape _ _ _ _ Hrun) as Hshape.
  rewrite (doc_keys_entries _ Hshape). simpl.
  pose proof (select_duplicates_count [] (document_entries entries)) as Hc.
  change (size (list_to_set (result_keys []) : gset string))
    with (size (∅ : gset string)) in Hc.
  rewrite size_empty in Hc. simpl in Hc. unfold select. rewrite Hc.
  assert (Hlen : length (document_entries entries) = length entries).
  { clear -Hshape. induction entries as [|x l IH]; [done|].
    simpl in Hshape. apply andb_true_iff in Hshape as [Hx Hl].
    destruct x as [| | | | | |[|[k v] [|]]]; try done.
    change (S (length (document_entries l)) = S (length l)). by rewrite IH. }
  lia.
Qed.

End Returns.

(** * Order and options *)


Lemma keeps_empty_weaken (pre : list Entry) (e : Entry) :
  keeps_empty true pre e = true -> keeps_empty false pre e = true.
Proof.
  unfold keeps_empty. intros [H _]%andb_true_iff. by rewrite H.
Qed.

Section Options.
Variable str_lower : string -> string.
Variable py_str : json -> string.


(** X14: [remove_empty_duplicates] bears on entries without a value only.
    Turned off, the function returns the same entries with a value, the same
    [duplicates_found] and the same report, [duplicates_removed] is 0, and
    every entry of the result with the option on is still in the result. *)
Theorem remove_option_spares_values (entries : list json) (sort_by : string)
    (result : list Entry) (st : Stats) (report : gmap string (list json)) :
  normalize str_lower py_str (JList entries) sort_by true = inr (result, st, report) ->
  exists result' st',
    normalize str_lower py_str (JList entries) sort_by false
    = inr (result', st', report) /\
    List.filter has_value result' = List.filter has_value result /\
    duplicates_found st' = duplicates_found st /\
    duplicates_removed st' = 0 /\
    forall e, e ∈ result -> e ∈ result'.
Proof.
  intros Hn.
  assert (Hs : well_shaped (JList entries) = true).
  { apply normalize_inr in Hn as (entries' & s & [= <-] & Hrun & _).
    by apply run_loop_inr_shape in Hrun. }
  destruct (normalize_total str_lower py_str _ sort_by false Hs)
    as (result' & st' & report' & Hn').
  pose proof (normalize_returns _ _ _ _ _ _ _ _ Hn) as (Hr & Hst & Hrep & _).
  pose proof (normalize_returns _ _ _ _ _ _ _ _ Hn') as (Hr' & Hst' & Hrep' & _).
  assert (report' = report) as ->
    by (apply map_eq; intros k; by rewrite Hrep, Hrep').
  exists result', st'. split; [done|].
  set (K := sort_key str_lower py_str sort_by) in *.
  set (E := document_entries entries) in *.
  assert (Hw : Forall (fun e => has_value e = true) (list_sort K (select keeps_value E)))
    by (rewrite list_sort_perm; apply select_value_has_value).
  assert (Hwo : forall red, Forall (fun e => lacks_value e = true)
                  (list_sort K (select (keeps_empty red) E)))
    by (intros red; rewrite list_sort_perm; apply select_empty_lacks_value).
  split.
  { rewrite Hr, Hr', !List.filter_app.
    by rewrite !(filter_none _ _ (lacks_not_has _ (Hwo _))). }
  split; [by rewrite Hst, Hst'|].
  split.
  { apply normalize_inr in Hn' as (entries' & s & [= <-] & Hrun & _ & -> & _).
    pose proof (run_loop_counters _ _ _ _ Hrun) as (_ & f & r & _ & Hrm & _ & Hz).
    simpl in *. rewrite Hrm, Hz; done. }
  intros e. rewrite Hr, Hr', !elem_of_app, !list_sort_perm. unfold select.
  intros [H|H]; [by left|right].
  apply elem_of_select_from in H as (l1 & l2 & Hl & Hk).
  apply elem_of_select_from. exists l1, l2. split; [done|].
  by apply keeps_empty_weaken.
Qed.

End Options.

(** * The file *)

Lemma string_app_assoc (a b c : string) : (a +:+ b) +:+ c = a +:+ b +:+ c.
Proof.
  induction a as [|x a IH]; [reflexivity|].
  change (String x ((a +:+ b) +:+ c) = String x (a +:+ b +:+ c)). by rewrite IH.
Qed.

Lemma string_app_nil_r (a : string) : a +:+ "" = a.
Proof.
  induction a as [|x a IH]; [reflexivity|].
  change (String x (a +:+ "") = String x a). by rewrite IH.
Qed.

Section Files.
Variable str_lower : string -> string.
Variable py_str : json -> string.
Variable json_load : string -> option json.
Variable json_dump : json -> string.

Lemma write_entries_lines (n i : Z) (l : list Entry) :
  (n - i = Z.of_nat (length l))%Z ->
  write_entries json_dump n i l
  = match l with
    | [] => ""
    | _ => String.concat ("," +:+ newline)
             (map (fun e => json_dump (entry_json e)) l) +:+ newline
    end.
Proof.
  revert i. induction l as [|x rest IH]; intros i Hlen; [done|].
  cbn [write_entries]. rewrite (IH (i + 1)%Z) by (simpl in Hlen; lia).
  destruct rest as [|y rest].
  - replace (i <? n - 1)%Z with false
      by (symmetry; apply Z.ltb_ge; simpl in Hlen; lia).
    simpl. by rewrite string_app_nil_r.
  - replace (i <? n - 1)%Z with true
      by (symmetry; apply Z.ltb_lt; simpl in Hlen; lia).
    cbn [map String.concat]. by rewrite !string_app_assoc.
Qed.

Lemma write_entries_dump_lines (n i : Z) (l : list Entry) :
  (n - i = Z.of_nat (length l))%Z ->
  write_entries json_dump n i l = dump_lines json_dump l.
Proof.
  revert i. induction l as [|x rest IH]; intros i Hlen; [done|].
  cbn [write_entries]. rewrite (IH (i + 1)%Z) by (simpl in Hlen; lia).
  destruct rest as [|y rest].
  - replace (i <? n - 1)%Z with false
      by (symmetry; apply Z.ltb_ge; simpl in Hlen; lia).
    simpl. by rewrite string_app_nil_r.
  - replace (i <? n - 1)%Z with true
      by (symmetry; apply Z.ltb_lt; simpl in Hlen; lia).
    cbn [dump_lines]. by rewrite !string_app_assoc.
Qed.

Lemma write_file_render (result : list Entry) :
  write_file json_dump result = render json_dump result.
Proof.
  unfold write_file, render. by rewrite write_entries_dump_lines by lia.
Qed.

(** X15: the text written is an opening bracket on a line of its own, the
    entries one per line with a comma after each but the last, and a closing
    bracket; for an empty result the two brackets on two lines. *)
Theorem written_layout (result : list Entry) :
  write_file json_dump result
  = match result with
    | [] => "[" +:+ newline +:+ "]"
    | _ => "[" +:+ newline
           +:+ String.concat ("," +:+ newline)
                 (map (fun e => json_dump (entry_json e)) result)
           +:+ newline +:+ "]"
    end.
Proof.
  unfold write_file. rewrite write_entries_lines by lia.
  destruct result; [done|]. by rewrite !string_app_assoc.
Qed.


(** X17: a second call on the file the first call wrote. If the result of
    the first call has no repeated key and the text written parses back to
    it, the second call returns the same result, finds no duplicate and
    leaves the file as it is, whatever its options but [sort_by]. *)
Theorem rerun_on_written_file (fs fs1 : gmap string string)
    (file_path sort_by : string) (red red2 modify_original2 : bool)
    (result : list Entry) (st : Stats) :
  process_dictionary str_lower py_str json_load json_dump
    fs file_path sort_by red true = (fs1, inr (result, st)) ->
  NoDup (result_keys result) ->
  json_load (write_file json_dump result) = Some (JList (map entry_json result)) ->
  process_dictionary str_lower py_str json_load json_dump
    fs1 file_path sort_by red2 modify_original2
  = (fs1, inr (result,
               mkStats (length result) 0 0
                 (entries_with_value st) (entries_without_value st))).
Proof.
  unfold process_dictionary at 1.
  destruct (fs !! file_path) as [text|]; [|done].
  destruct (json_load text) as [data|]; [|done].
  destruct (normalize str_lower py_str data sort_by red)
    as [e|[[result' st'] report]] eqn:Hn; [done|].
  intros [= <- <- <-] Hnd Hload. rewrite write_file_render in Hload.
  unfold process_dictionary. rewrite lookup_insert_eq, Hload.
  rewrite (second_pass_fixed _ _ _ _ _ _ _ _ _ Hn Hnd).
  destruct modify_original2; [|done]. by rewrite insert_insert_eq.
Qed.

End Files.

(** * The theorems at concrete documents, continued *)

Lemma sample_run :
  normalize Sample.lower Sample.str (JList Sample.document) "key" true
  = inr (Sample.result, mkStats 6 2 1 3 2, Sample.report).
Proof. vm_compute. reflexivity. Defined.

Lemma plain_run :
  normalize Sample.lower Sample.str (JList Sample.plain_document) "key" true
  = inr (Sample.plain_result, mkStats 3 0 0 2 1, ∅).
Proof. vm_compute. reflexivity. Defined.

Lemma result_is_kept_entries_witness :
  well_shaped (JList Sample.document) = true /\
  exists st report,
    normalize Sample.lower Sample.str (JList Sample.document) "key" true
    = inr (list_sort (sort_key Sample.lower Sample.str "key")
             (select keeps_value (document_entries Sample.document))
           ++ list_sort (sort_key Sample.lower Sample.str "key")
                (select (keeps_empty true) (document_entries Sample.document)),
           st, report).
Proof.
  split; [reflexivity|].
  apply (result_is_kept_entries Sample.lower Sample.str). reflexivity.
Defined.

Lemma stats_count_document_witness :
  well_shaped (JList Sample.document) = true /\
  exists result report,
    normalize Sample.lower Sample.str (JList Sample.document) "key" true
    = inr (result,
           mkStats (length Sample.document)
             (length (select is_duplicate (document_entries Sample.document)))
             (length (select (is_removed true) (document_entries Sample.document)))
             (length (select keeps_value (document_entries Sample.document)))
             (length (select (keeps_empty true) (document_entries Sample.document))),
           report).
Proof.
  split; [reflexivity|].
  apply (stats_count_document Sample.lower Sample.str). reflexivity.
Defined.

Lemma report_lists_later_values_witness :
  normalize Sample.lower Sample.str (JList Sample.document) "key" true
  = inr (Sample.result, mkStats 6 2 1 3 2, Sample.report) /\
  Sample.report !! "a"
  = match later_values "a" (document_entries Sample.document) with
    | [] => None
    | vs => Some vs
    end.
Proof.
  split; [exact sample_run|].
  exact (report_lists_later_values _ _ _ _ _ _ _ _ "a" sample_run).
Defined.

Lemma result_membership_witness :
  normalize Sample.lower Sample.str (JList Sample.document) "key" true
  = inr (Sample.result, mkStats 6 2 1 3 2, Sample.report) /\
  (mkEntry "a" (JStr "z") ∈ Sample.result <->
   exists pre post,
     document_entries Sample.document = pre ++ mkEntry "a" (JStr "z") :: post /\
     keeps_value pre (mkEntry "a" (JStr "z"))
     || keeps_empty true pre (mkEntry "a" (JStr "z")) = true).
Proof.
  split; [exact sample_run|].
  exact (result_membership _ _ _ _ _ _ _ _ (mkEntry "a" (JStr "z")) sample_run).
Defined.

Lemma each_group_keys_unique_witness :
  normalize Sample.lower Sample.str (JList Sample.document) "key" true
  = inr (Sample.result, mkStats 6 2 1 3 2, Sample.report) /\
  NoDup (result_keys (List.filter has_value Sample.result)) /\
  (true = true -> NoDup (result_keys (List.filter lacks_value Sample.result))).
Proof.
  split; [exact sample_run|].
  exact (each_group_keys_unique _ _ _ _ _ _ _ _ sample_run).
Defined.

Lemma result_keys_are_document_keys_witness :
  normalize Sample.lower Sample.str (JList Sample.document) "key" true
  = inr (Sample.result, mkStats 6 2 1 3 2, Sample.report) /\
  ("c" ∈ result_keys Sample.result <-> "c" ∈ doc_keys Sample.document).
Proof.
  split; [exact sample_run|].
  exact (result_keys_are_document_keys _ _ _ _ _ _ _ _ "c" sample_run).
Defined.

Lemma values_before_empties_witness :
  normalize Sample.lower Sample.str (JList Sample.document) "key" true
  = inr (Sample.result, mkStats 6 2 1 3 2, Sample.report) /\
  exists with_value without_value,
    Sample.result = with_value ++ without_value /\
    Forall (fun e => has_value e = true) with_value /\
    Forall (fun e => lacks_value e = true) without_value /\
    length with_value = 3 /\
    length without_value = 2.
Proof.
  split; [exact sample_run|].
  exact (values_before_empties _ _ _ _ _ _ _ _ sample_run).
Defined.

Lemma unique_keys_exactly_witness :
  normalize Sample.lower Sample.str (JList Sample.document) "key" true
  = inr (Sample.result, mkStats 6 2 1 3 2, Sample.report) /\
  (NoDup (result_keys Sample.result) <->
   forall pre e post,
     document_entries Sample.document = pre ++ e :: post ->
     occurs_before (ekey e) pre = false ->
     has_value e = false ->
     valued_before (ekey e) post = false).
Proof.
  split; [exact sample_run|].
  exact (unique_keys_exactly _ _ _ _ _ _ _ sample_run).
Defined.

Lemma duplicates_found_counts_witness :
  normalize Sample.lower Sample.str (JList Sample.document) "key" true
  = inr (Sample.result, mkStats 6 2 1 3 2, Sample.report) /\
  2 + size (list_to_set (doc_keys Sample.document) : gset string) = 6.
Proof.
  split; [exact sample_run|].
  exact (duplicates_found_counts _ _ _ _ _ _ _ _ sample_run).
Defined.

Lemma report_empty_iff_witness :
  normalize Sample.lower Sample.str (JList Sample.plain_document) "key" true
  = inr (Sample.plain_result, mkStats 3 0 0 2 1, ∅) /\
  ((∅ : gmap string (list json)) = ∅ <-> 0 = 0).
Proof.
  split; [exact plain_run|].
  exact (report_empty_iff _ _ _ _ _ _ _ _ plain_run).
Defined.

Lemma sort_by_only_orders_witness :
  normalize Sample.lower Sample.str (JList Sample.document) "key" true
  = inr (Sample.result, mkStats 6 2 1 3 2, Sample.report) /\
  exists result',
    normalize Sample.lower Sample.str (JList Sample.document) "value" true
    = inr (result', mkStats 6 2 1 3 2, Sample.report) /\
    Permutation Sample.result result'.
Proof.
  split; [exact sample_run|].
  exact (sort_by_only_orders _ _ _ _ "value" _ _ _ _ sample_run).
Defined.

Lemma result_size_bounds_witness :
  normalize Sample.lower Sample.str (JList Sample.document) "key" true
  = inr (Sample.result, mkStats 6 2 1 3 2, Sample.report) /\
  length Sample.result = 3 + 2 /\
  length Sample.result <= 6 /\
  6 <= length Sample.result + 2.
Proof.
  split; [exact sample_run|].
  exact (result_size_bounds _ _ _ _ _ _ _ _ sample_run).
Defined.


Lemma remove_option_spares_values_witness :
  normalize Sample.lower Sample.str (JList Sample.document) "key" true
  = inr (Sample.result, mkStats 6 2 1 3 2, Sample.report) /\
  exists result' st',
    normalize Sample.lower Sample.str (JList Sample.document) "key" false
    = inr (result', st', Sample.report) /\
    List.filter has_value result' = List.filter has_value Sample.result /\
    duplicates_found st' = 2 /\
    duplicates_removed st' = 0 /\
    forall e, e ∈ Sample.result -> e ∈ result'.
Proof.
  split; [exact sample_run|].
  exact (remove_option_spares_values _ _ _ _ _ _ _ sample_run).
Defined.

Lemma unique_keys_preserved_witness :
  NoDup (doc_keys Sample.plain_document) /\
  normalize Sample.lower Sample.str (JList Sample.plain_document) "key" true
  = inr (Sample.plain_result, mkStats 3 0 0 2 1, ∅) /\
  NoDup (result_keys Sample.plain_result).
Proof.
  assert (Hnd : NoDup (doc_keys Sample.plain_document))
    by (apply (bool_decide_unpack (NoDup _)); vm_compute; exact I).
  split; [exact Hnd|]. split; [exact plain_run|].
  exact (unique_keys_preserved _ _ _ _ _ _ _ _ Hnd plain_run).
Defined.

Lemma second_pass_identity_witness :
  normalize Sample.lower Sample.str (JList Sample.plain_document) "key" true
  = inr (Sample.plain_result, mkStats 3 0 0 2 1, ∅) /\
  NoDup (result_keys Sample.plain_result) /\
  normalize Sample.lower Sample.str
    (JList (map entry_json Sample.plain_result)) "key" false
  = inr (Sample.plain_result, mkStats (length Sample.plain_result) 0 0 2 1, ∅).
Proof.
  assert (Hnd : NoDup (result_keys Sample.plain_result))
    by (apply (bool_decide_unpack (NoDup _)); vm_compute; exact I).
  split; [exact plain_run|]. split; [exact Hnd|].
  exact (second_pass_identity _ _ _ _ _ false _ _ _ plain_run Hnd).
Defined.

Lemma rerun_on_written_file_witness :
  let table :=
    [("input", JList Sample.plain_document);
     (write_file Sample.dump Sample.plain_result,
      JList (map entry_json Sample.plain_result))] in
  let fs : gmap string string := {[ "dictionary.json" := "input" ]} in
  let fs1 : gmap string string :=
    {[ "dictionary.json" := write_file Sample.dump Sample.plain_result ]} in
  process_dictionary Sample.lower Sample.str (Sample.load table) Sample.dump
    fs "dictionary.json" "key" true true
  = (fs1, inr (Sample.plain_result, mkStats 3 0 0 2 1)) /\
  NoDup (result_keys Sample.plain_result) /\
  Sample.load table (write_file Sample.dump Sample.plain_result)
  = Some (JList (map entry_json Sample.plain_result)) /\
  process_dictionary Sample.lower Sample.str (Sample.load table) Sample.dump
    fs1 "dictionary.json" "key" false true
  = (fs1, inr (Sample.plain_result,
               mkStats (length Sample.plain_result) 0 0 2 1)).
Proof.
  intros table fs fs1.
  assert (Hrun : process_dictionary Sample.lower Sample.str (Sample.load table)
                   Sample.dump fs "dictionary.json" "key" true true
                 = (fs1, inr (Sample.plain_result, mkStats 3 0 0 2 1)))
    by (vm_compute; reflexivity).
  assert (Hnd : NoDup (result_keys Sample.plain_result))
    by (apply (bool_decide_unpack (NoDup _)); vm_compute; exact I).
  assert (Hload : Sample.load table (write_file Sample.dump Sample.plain_result)
                  = Some (JList (map entry_json Sample.plain_result)))
    by (vm_compute; reflexivity).
  split; [exact Hrun|]. split; [exact Hnd|]. split; [exact Hload|].
  exact (rerun_on_written_file _ _ _ _ _ _ _ _ true false true _ _ Hrun Hnd Hload).
Defined.

Lemma report_size_is_duplicates_found_witness :
  normalize Sample.lower Sample.str (JList Sample.document) "key" true
  = inr (Sample.result, mkStats 6 2 1 3 2, Sample.report) /\
  report_size Sample.report = 2.
Proof.
  split; [exact sample_run|].
  exact (report_size_is_duplicates_found _ _ _ _ _ _ _ _ sample_run).
Defined.
